(** * flightaware-tracklog: the track-reconstruction pipeline

    A shallow embedding of [main.js] (the single-source program) and of its
    multi-source successor, which share the helpers
    [getDistanceFromLatLonInNm], [bearing] and the per-source pipeline
    (row construction, duplicate-timestamp filter, speed/heading pass,
    first-row backfill, CSV rendering).

    Number model.  JavaScript numbers are binary64 floats.  The embedding
    reads the arithmetic of the helpers over the real numbers [R]: rounding,
    [NaN], the infinities and the sign of zero are not represented, and
    [Math.sin], [Math.cos], [Math.sqrt] and [Math.PI] are [sin], [cos],
    [sqrt] and [PI].  Values that the program produces with [Math.round] or
    [Math.floor] are integers and are kept in [Z]; [Date] time values are
    integers (milliseconds) and are kept in [Z] too.  [undefined] is
    [None].

    Control model.  A function that can throw returns a [result]; the
    arrays of the program are lists, and an index past the end reads
    [undefined]. *)

From Stdlib Require Import Reals Lra Lia ZArith List Bool Ascii String.
From Stdlib Require Import DecimalString.
Import ListNotations.

(** ** JavaScript built-ins used by the program *)

Module JS.

Local Open Scope R_scope.

(** [Math.floor] and [Math.round] (round half up: [floor (x + 0.5)]). *)
Definition Math_floor (x : R) : Z := Zfloor x.
Definition Math_round (x : R) : Z := Zfloor (x + / 2).

(** [Math.atan2 y x]: the angle of the point [(x, y)], in [(-PI, PI]]. *)
Definition Math_atan2 (y x : R) : R :=
  if Rlt_dec 0 x then atan (y / x)
  else if Rlt_dec x 0 then
    (if Rle_dec 0 y then atan (y / x) + PI else atan (y / x) - PI)
  else if Rlt_dec 0 y then PI / 2
  else if Rlt_dec y 0 then - (PI / 2)
  else 0.

(** The remainder operator [a % b]: [a - b * trunc (a / b)], truncation
    being towards zero, so the result has the sign of the dividend. *)
Definition trunc (q : R) : Z :=
  if Rle_dec 0 q then Zfloor q else Zceil q.

Definition rem (a b : R) : R := a - b * IZR (trunc (a / b)).

(** *** Strings *)

Local Open Scope string_scope.

(** The line feed written [\n] in the source, and the double quote. *)
Definition nl : string := String (ascii_of_nat 10) EmptyString.
Definition dq : string := String (ascii_of_nat 34) EmptyString.

Fixpoint spaces (n : nat) : string :=
  match n with
  | O => EmptyString
  | S k => String " "%char (spaces k)
  end.

(** [s.padStart(targetLength)] and [s.padEnd(targetLength)], the fill being
    a space; a string that is long enough is returned as it is. *)
Definition padStart (targetLength : nat) (s : string) : string :=
  spaces (targetLength - length s) ++ s.

Definition padEnd (targetLength : nat) (s : string) : string :=
  s ++ spaces (targetLength - length s).

(** [String(v)] for an integer-valued number, and for a value that is such
    a number or [undefined]. *)
Definition String_int (z : Z) : string := NilZero.string_of_int (Z.to_int z).

Definition String_opt (v : option Z) : string :=
  match v with
  | None => "undefined"
  | Some z => String_int z
  end.

(** [s.split(sep)] for a one-character separator. *)
Fixpoint split (sep : ascii) (s : string) : list string :=
  match s with
  | EmptyString => [EmptyString]
  | String c s' =>
      if Ascii.eqb c sep then EmptyString :: split sep s'
      else match split sep s' with
           | [] => [String c EmptyString]
           | piece :: pieces => String c piece :: pieces
           end
  end.

(** *** Arrays *)

(** [self.findIndex(p)]: the index of the first element that satisfies
    [p], and [-1] when there is none. *)
Fixpoint findIndex_from {A : Type} (p : A -> bool) (l : list A) (i : Z) : Z :=
  match l with
  | [] => (-1)%Z
  | x :: l' => if p x then i else findIndex_from p l' (i + 1)%Z
  end.

Definition findIndex {A : Type} (p : A -> bool) (self : list A) : Z :=
  findIndex_from p self 0%Z.

(** [self.filter(cb)], the callback receiving the element, its index and
    the array itself. *)
Fixpoint filter_from {A : Type} (cb : A -> Z -> list A -> bool)
    (self l : list A) (index : Z) : list A :=
  match l with
  | [] => []
  | x :: l' =>
      if cb x index self then x :: filter_from cb self l' (index + 1)%Z
      else filter_from cb self l' (index + 1)%Z
  end.

Definition filter {A : Type} (cb : A -> Z -> list A -> bool)
    (self : list A) : list A :=
  filter_from cb self self 0%Z.

(** *** Exceptions *)

Inductive exn : Set := TypeError | RangeError.

Inductive result (A : Type) : Type :=
  | Ok (a : A)
  | Throw (e : exn).

Arguments Ok {A} a.
Arguments Throw {A} e.

Definition bind {A B : Type} (m : result A) (k : A -> result B) : result B :=
  match m with
  | Ok a => k a
  | Throw e => Throw e
  end.

(** *** Library functions the program calls

    [format] is date-fns' [format] applied to a valid date (given by its
    time value) and a pattern, the time zone being UTC;
    [toLocaleUpperCase] is the string method; [Number_toString] is
    [String(x)] for a number [x] that is not known to be an integer. *)
Record Host : Type := {
  format : Z -> string -> string;
  toLocaleUpperCase : string -> string;
  Number_toString : R -> string
}.

End JS.

Notation "x <- m ;; k" := (JS.bind m (fun x => k))
  (at level 61, m at next level, right associativity).

(** ** Helpers of the source: distance and bearing *)

Module Geo.

Import JS.
Local Open Scope R_scope.

Definition deg2rad (deg : R) : R := deg * (PI / 180).

(** Haversine distance on a sphere of radius 6378.137 km, in nautical
    miles. *)
Definition getDistanceFromLatLonInNm (lat1 lon1 lat2 lon2 : R) : R :=
  let R := 6378137 / 1000 in
  let dLat := deg2rad (lat2 - lat1) in
  let dLon := deg2rad (lon2 - lon1) in
  let a :=
    sin (dLat / 2) * sin (dLat / 2) +
    cos (deg2rad lat1) * cos (deg2rad lat2) *
    sin (dLon / 2) * sin (dLon / 2) in
  let c := 2 * Math_atan2 (sqrt a) (sqrt (1 - a)) in
  let d := R * c in
  d / (18520000016 / 10000000000).

Definition toRadians (degrees : R) : R := degrees * PI / 180.
Definition toDegrees (radians : R) : R := radians * 180 / PI.

Definition bearing (startLat startLng destLat destLng : R) : R :=
  let startLat := toRadians startLat in
  let startLng := toRadians startLng in
  let destLat := toRadians destLat in
  let destLng := toRadians destLng in
  let y := sin (destLng - startLng) * cos destLat in
  let x := cos startLat * sin destLat -
           sin startLat * cos destLat * cos (destLng - startLng) in
  let brng := Math_atan2 y x in
  let brng := toDegrees brng in
  rem (brng + 360) 360.

End Geo.

(** ** The per-source pipeline *)

Module Track.

Import JS Geo.
Local Open Scope string_scope.

(** One entry [[lon, lat, altitudeMeters]] of [feat.geometry.coordinates]. *)
Record coordinate : Type := { c_lon : R; c_lat : R; c_alt : R }.

(** [new Date(times[i])]: a date with an integer time value in
    milliseconds, or an invalid date, whose time value is [NaN] and on
    which date-fns' [format] throws.  An index past the end of
    [coordTimes] reads [undefined], and [new Date(undefined)] is taken to
    be an invalid date, as in plain JavaScript.  The program registers
    timezone-mock before the loop, and the constructor of its [Date]
    throws an [AssertionError] on a time string in a format it does not
    handle; the model has no such string: a feature holds the dates of
    time strings the constructor accepts. *)
Inductive Date : Type := TimeValue (ms : Z) | InvalidDate.

(** A feature of the parsed KML: [geometry.coordinates] and
    [properties.coordTimes], the latter read through [new Date]. *)
Record Feature : Type := {
  coordinates : list coordinate;
  coordTimes : list Date
}.

(** A row object: the fields pushed in the first loop, and [spd] and [hdg],
    which are absent ([undefined]) until the second loop assigns them. *)
Record Row : Type := {
  lat : R; lon : R; alt : Z; t : Z;
  date : string; time : string; zone : string;
  pitch : string; bank : string;
  spd : option Z; hdg : option Z
}.

Definition with_spd (row : Row) (v : option Z) : Row :=
  {| lat := lat row; lon := lon row; alt := alt row; t := t row;
     date := date row; time := time row; zone := zone row;
     pitch := pitch row; bank := bank row; spd := v; hdg := hdg row |}.

Definition with_hdg (row : Row) (v : option Z) : Row :=
  {| lat := lat row; lon := lon row; alt := alt row; t := t row;
     date := date row; time := time row; zone := zone row;
     pitch := pitch row; bank := bank row; spd := spd row; hdg := v |}.

Section WithHost.

Variable host : Host.

(** The body of the first loop.  date-fns' [format] throws a [RangeError]
    on an invalid date. *)
Definition new_row (timePattern : string) (coord : coordinate) (d : Date)
    : result Row :=
  match d with
  | InvalidDate => Throw RangeError
  | TimeValue ms =>
      Ok {| lat := c_lat coord; lon := c_lon coord;
            alt := Math_round (c_alt coord * (3280839895 / 1000000000));
            t := ms;
            date := format host ms "yyyy-LL-dd";
            time := format host ms timePattern;
            zone := "-00:00";
            pitch := String_int 0; bank := String_int 0;
            spd := None; hdg := None |}
  end.

(** The first loop, from index [i] on: [coordinates] is what is left of the
    array, [times] the whole of [coordTimes]. *)
Fixpoint push_rows (timePattern : string) (coordinates : list coordinate)
    (times : list Date) (i : nat) : result (list Row) :=
  match coordinates with
  | [] => Ok []
  | coord :: rest =>
      row <- new_row timePattern coord (nth i times InvalidDate) ;;
      rows <- push_rows timePattern rest times (S i) ;;
      Ok (row :: rows)
  end.

End WithHost.

(** [rows.filter((row, index, self) =>
      self.findIndex(t => t.t.getTime() === row.t.getTime()) === index)] *)
Definition remove_duplicate_rows (rows : list Row) : list Row :=
  JS.filter
    (fun row index self =>
       (findIndex (fun t0 => (t t0 =? t row)%Z) self =? index)%Z)
    rows.

(** The body of the second loop: the row as the loop leaves it. *)
Definition speed_and_heading (last row : Row) : Row :=
  let dist :=
    getDistanceFromLatLonInNm (lat last) (lon last) (lat row) (lon row) in
  let time := (t row - t last)%Z in
  let heading := bearing (lat last) (lon last) (lat row) (lon row) in
  if Req_dec_T dist 0 then with_hdg (with_spd row None) None
  else
    with_hdg
      (with_spd row (Some (Math_floor (dist / (IZR time / 1000 / 3600))%R)))
      (Some (Math_floor heading)).

Fixpoint speed_and_heading_loop (last : Row) (rows : list Row) : list Row :=
  match rows with
  | [] => []
  | row :: rest =>
      let row := speed_and_heading last row in
      row :: speed_and_heading_loop row rest
  end.

(** [let last = rows[0]] followed by the loop; on an empty array [last] is
    [undefined] and the loop body never runs. *)
Definition calculate_speed_and_heading (rows : list Row) : list Row :=
  match rows with
  | [] => []
  | row0 :: _ => speed_and_heading_loop row0 rows
  end.

(** [if (rows[0].spd === undefined) rows[0].spd = rows[1].spd;] and the
    same for [hdg].  Reading a property of [undefined] throws a
    [TypeError]. *)
Definition backfill (rows : list Row) : result (list Row) :=
  match rows with
  | [] => Throw TypeError
  | row0 :: rest =>
      row0 <- match spd row0 with
              | Some _ => Ok row0
              | None =>
                  match rest with
                  | [] => Throw TypeError
                  | row1 :: _ => Ok (with_spd row0 (spd row1))
                  end
              end ;;
      row0 <- match hdg row0 with
              | Some _ => Ok row0
              | None =>
                  match rest with
                  | [] => Throw TypeError
                  | row1 :: _ => Ok (with_hdg row0 (hdg row1))
                  end
              end ;;
      Ok (row0 :: rest)
  end.

(** From the coordinates of a feature to its Track: the first loop, the
    duplicate filter, the second loop and the backfill, in the order [main]
    runs them. *)
Definition synthesize (host : Host) (timePattern : string) (feat : Feature)
    : result (list Row) :=
  rows <- push_rows host timePattern (coordinates feat) (coordTimes feat) 0 ;;
  let rows := remove_duplicate_rows rows in
  let rows := calculate_speed_and_heading rows in
  backfill rows.

(** The template literal appended to [output] for one row. *)
Definition render_row (host : Host) (row : Row) : string :=
  padStart 10 (date row) ++ ","
  ++ padStart 9 (time row) ++ ","
  ++ padStart 8 (zone row) ++ ",       ,"
  ++ padEnd 13 (Number_toString host (lat row)) ++ ","
  ++ padEnd 13 (Number_toString host (lon row)) ++ ",        ,      ,"
  ++ padStart 8 (String_int (alt row)) ++ ",      ,       ,"
  ++ padStart 7 (String_opt (spd row)) ++ ",        ,"
  ++ padStart 7 (pitch row) ++ ","
  ++ padStart 7 (bank row)
  ++ ",       ,        ,     ,      ,      ,       ,       ,         ,         ,        ,        ,       ,       ,        ,        ,        ,        ,        ,        ,        ,        ,        ,    ,     ,"
  ++ padStart 7 (String_opt (hdg row)) ++ nl.

(** The third loop: [output += ...] for every row. *)
Definition write_rows (host : Host) (rows : list Row) (output : string)
    : string :=
  fold_left (fun output row => output ++ render_row host row) rows output.

(** The three lines of the G1000 header. *)
Definition airframe_line (host : Host) (model ident : string) : string :=
  "#airframe_info, log_version="
    ++ dq
    ++ "1.00"
    ++ dq
    ++ ", airframe_name="
    ++ dq
    ++ toLocaleUpperCase host model
    ++ dq
    ++ ", unit_software_part_number="
    ++ dq
    ++ "000-A0000-0A"
    ++ dq
    ++ ", unit_software_version="
    ++ dq
    ++ "9.00"
    ++ dq
    ++ ", system_software_part_number="
    ++ dq
    ++ "000-A0000-00"
    ++ dq
    ++ ", system_id="
    ++ dq
    ++ toLocaleUpperCase host ident
    ++ dq
    ++ ", mode=NORMAL,".

Definition units_row : string :=
  "#yyy-mm-dd, hh:mm:ss,   hh:mm,  ident,      degrees,      degrees, ft Baro,  inch,  ft msl, deg C,     kt,     kt,     fpm,    deg,    deg,      G,      G,   deg,   deg, volts,   gals,   gals,      gph,      psi,   deg F,     psi,     Hg,    rpm,   deg F,   deg F,   deg F,   deg F,   deg F,   deg F,   deg F,   deg F,  ft wgs,  kt, enum,    deg,    MHz,    MHz,     MHz,     MHz,    fsd,    fsd,     kt,   deg,     nm,    deg,    deg,   bool,  enum,   enum,   deg,   deg,   fpm,   enum,   mt,    mt,     mt,    mt,     mt".

Definition names_row : string :=
  "  Lcl Date, Lcl Time, UTCOfst, AtvWpt,     Latitude,    Longitude,    AltB, BaroA,  AltMSL,   OAT,    IAS, GndSpd,    VSpd,  Pitch,   Roll,  LatAc, NormAc,   HDG,   TRK, volt1,  FQtyL,  FQtyR, E1 FFlow, E1 FPres, E1 OilT, E1 OilP, E1 MAP, E1 RPM, E1 CHT1, E1 CHT2, E1 CHT3, E1 CHT4, E1 EGT1, E1 EGT2, E1 EGT3, E1 EGT4,  AltGPS, TAS, HSIS,    CRS,   NAV1,   NAV2,    COM1,    COM2,   HCDI,   VCDI, WndSpd, WndDr, WptDst, WptBrg, MagVar, AfcsOn, RollM, PitchM, RollC, PichC, VSpdG, GPSfix,  HAL,   VAL, HPLwas, HPLfd, VPLwas".

Definition header (host : Host) (model ident : string) : string :=
  airframe_line host model ident ++ nl ++ units_row ++ nl ++ names_row ++ nl.

End Track.

(** ** [main.js]: one source *)

Module Single.

Import JS Track.
Local Open Scope string_scope.

(** [main], from the answers of the prompt ([res.ident], [res.model]) and
    the features of the parsed KML ([data.features]) to the file it
    writes: its name and its contents.  A [Throw] is an exception that
    leaves [main]. *)
Definition main (host : Host) (ident model : string)
    (features : list Feature) : result (string * string) :=
  let header := header host model ident in
  match nth_error features 2 with
  | None => Throw TypeError
  | Some feat =>
      rows <- synthesize host "kk:mm:ss" feat ;;
      let output := write_rows host rows "" in
      match rows with
      | [] => Throw TypeError
      | row0 :: _ =>
          let filename :=
            "outputs/" ++ toLocaleUpperCase host ident ++ "-"
            ++ format host (t row0) "yyyy-LL-dd-kk:mm" ++ ".csv" in
          Ok (filename, header ++ output)
      end
  end.

End Single.

(** ** The multi-source program *)

Module Multi.

Import JS Track.
Local Open Scope string_scope.

(** The variables the loop over the urls updates. *)
Record state : Type := {
  output : string;
  first_timestamp : option Z
}.

(** One iteration of [for (const url of urls)], on the features of the
    KML fetched for that url. *)
Definition process_url (host : Host) (st : state) (features : list Feature)
    : result state :=
  match nth_error features 2 with
  | None => Throw TypeError
  | Some feat =>
      let len := List.length (coordinates feat) in
      if (len <=? 1)%nat then Ok st
      else
        rows <- synthesize host "HH:mm:ss" feat ;;
        let output := write_rows host rows (output st) in
        match first_timestamp st with
        | Some ts =>
            Ok {| output := output; first_timestamp := Some ts |}
        | None =>
            match rows with
            | [] => Throw TypeError
            | row0 :: _ =>
                Ok {| output := output; first_timestamp := Some (t row0) |}
            end
        end
  end.

Fixpoint for_each_url (host : Host) (st : state)
    (urls : list (list Feature)) : result state :=
  match urls with
  | [] => Ok st
  | features :: rest =>
      st <- process_url host st features ;;
      for_each_url host st rest
  end.

(** How a run ends: the file is written, the process exits with a status
    code ([process.exit]), or an exception leaves [main]. *)
Inductive outcome : Type :=
  | Written (filename contents : string)
  | Exit (code : Z)
  | Uncaught (e : exn).

(** [main], from the ident, the model, the [--output] option and the
    features fetched for each url, in the order of the urls (as the
    duplicate-url filter leaves them).  An exception inside the loop is
    caught and ends the process with status 1; [format] on the [null]
    timestamp of a run without rows throws outside the [try]. *)
Definition main (host : Host) (ident model : string)
    (args_output : option string) (urls : list (list Feature)) : outcome :=
  let header := header host model ident in
  match for_each_url host {| output := ""; first_timestamp := None |} urls with
  | Throw _ => Exit 1
  | Ok st =>
      let default :=
        match first_timestamp st with
        | None => Throw RangeError
        | Some ts =>
            Ok ("outputs/" ++ toLocaleUpperCase host ident ++ "-"
                ++ format host ts "yyyy-LL-dd-HH:mm" ++ ".csv")
        end in
      let filename :=
        match args_output with
        | None => default
        | Some o => if String.eqb o "" then default else Ok o
        end in
      match filename with
      | Throw e => Uncaught e
      | Ok filename => Written filename (header ++ output st)
      end
  end.

End Multi.

(** ** Notions the properties are stated with *)

Module Props.

Import JS Track.
Local Open Scope string_scope.

(** *** Text: characters, fields and lines *)

Definition comma : ascii := ","%char.
Definition newline : ascii := ascii_of_nat 10.

(** Whether the character [c] occurs in [s]. *)
Fixpoint occurs (c : ascii) (s : string) : bool :=
  match s with
  | EmptyString => false
  | String c' s' => Ascii.eqb c' c || occurs c s'
  end.

(** The lines of a text: the pieces between line feeds, the empty piece
    after a final line feed left out. *)
Definition lines (text : string) : list string :=
  let pieces := split newline text in
  match last pieces "x" with
  | EmptyString => removelast pieces
  | _ => pieces
  end.

(** The columns of the template literal of [render_row], one entry per
    comma-separated field. *)
Definition row_fields (host : Host) (row : Row) : list string :=
  [ padStart 10 (date row);
    padStart 9 (time row);
    padStart 8 (zone row);
    "       ";
    padEnd 13 (Number_toString host (lat row));
    padEnd 13 (Number_toString host (lon row));
    "        ";
    "      ";
    padStart 8 (String_int (alt row));
    "      ";
    "       ";
    padStart 7 (String_opt (spd row));
    "        ";
    padStart 7 (pitch row);
    padStart 7 (bank row);
    "       ";
    "        ";
    "     ";
    "      ";
    "      ";
    "       ";
    "       ";
    "         ";
    "         ";
    "        ";
    "        ";
    "       ";
    "       ";
    "        ";
    "        ";
    "        ";
    "        ";
    "        ";
    "        ";
    "        ";
    "        ";
    "        ";
    "    ";
    "     ";
    padStart 7 (String_opt (hdg row)) ].

(** The data line of a row, without its line feed. *)
Definition data_line (host : Host) (row : Row) : string :=
  String.concat "," (row_fields host row).

(** The library functions, as the program calls them, never print the
    character [c]: [format] with the date pattern and with the time
    pattern, and [String] on a number. *)
Definition host_avoids (c : ascii) (host : Host) (timePattern : string)
    : Prop :=
  (forall ms, occurs c (format host ms "yyyy-LL-dd") = false) /\
  (forall ms, occurs c (format host ms timePattern) = false) /\
  (forall x, occurs c (Number_toString host x) = false).

(** *** Duplicate removal, specified

    A scan that keeps a point exactly when its key is not the key of an
    earlier point; [seen] holds the keys of the points already passed. *)
Fixpoint keep_first_occurrences (key : Row -> Z) (seen : list Z)
    (rows : list Row) : list Row :=
  match rows with
  | [] => []
  | row :: rest =>
      if existsb (Z.eqb (key row)) seen
      then keep_first_occurrences key (key row :: seen) rest
      else row :: keep_first_occurrences key (key row :: seen) rest
  end.

(** The timestamp at one-second resolution. *)
Definition second_of (row : Row) : Z := (t row / 1000)%Z.

(** *** Rows as the first loop builds them *)

Definition built (host : Host) (timePattern : string) (row : Row) : Prop :=
  date row = format host (t row) "yyyy-LL-dd" /\
  time row = format host (t row) timePattern /\
  zone row = "-00:00" /\ pitch row = "0" /\ bank row = "0".

(** *** Derived fields *)

Definition defined (row : Row) : Prop :=
  (exists v, spd row = Some v) /\ (exists v, hdg row = Some v).

Definition distance (a b : Row) : R :=
  Geo.getDistanceFromLatLonInNm (lat a) (lon a) (lat b) (lon b).

(** Every row of [rows] lies at a non-zero computed distance from the row
    before it, [last] being the row before the first. *)
Fixpoint apart (last : Row) (rows : list Row) : Prop :=
  match rows with
  | [] => True
  | row :: rest => distance last row <> 0%R /\ apart row rest
  end.

Definition consecutive_apart (rows : list Row) : Prop :=
  match rows with
  | [] => True
  | row0 :: rest => apart row0 rest
  end.

(** *** Several sources *)

Fixpoint mapM {A B : Type} (f : A -> result B) (l : list A)
    : result (list B) :=
  match l with
  | [] => Ok []
  | x :: l' => y <- f x ;; ys <- mapM f l' ;; Ok (y :: ys)
  end.

(** A source the loop passes over: it has a trajectory, of at most one
    coordinate. *)
Definition skipped (features : list Feature) : bool :=
  match nth_error features 2 with
  | Some feat => (List.length (coordinates feat) <=? 1)%nat
  | None => false
  end.

(** The Track of one source, from that source alone. *)
Definition track_of (host : Host) (features : list Feature)
    : result (list Row) :=
  match nth_error features 2 with
  | None => Throw TypeError
  | Some feat => synthesize host "HH:mm:ss" feat
  end.

(** *** Sample data

    A host whose functions print decimal integers and upper-case ASCII
    letters: an inhabitant of [Host] that satisfies the assumptions the
    theorems make of the library functions. *)
Definition upper_ascii (c : ascii) : ascii :=
  let n := nat_of_ascii c in
  if (97 <=? n)%nat && (n <=? 122)%nat then ascii_of_nat (n - 32) else c.

Fixpoint upper (s : string) : string :=
  match s with
  | EmptyString => EmptyString
  | String c s' => String (upper_ascii c) (upper s')
  end.

Definition sample_host : Host :=
  {| format := fun ms _ => String_int ms;
     toLocaleUpperCase := upper;
     Number_toString := fun x => String_int (Zfloor x) |}.

Definition sample_row (latitude longitude : R) (ms : Z) (clock : string)
    (speed heading : option Z) : Row :=
  {| lat := latitude; lon := longitude; alt := 328; t := ms;
     date := "2024-05-01"; time := clock; zone := "-00:00";
     pitch := "0"; bank := "0"; spd := speed; hdg := heading |}.

(** Two points of one second, half a second apart. *)
Definition same_second_rows : list Row :=
  [ sample_row 40 (-70) 0 "00:00:00" None None;
    sample_row (4001 / 100) (-7001 / 100) 500 "00:00:00" None None ].

(** Two points a minute apart at one position. *)
Definition same_place_rows : list Row :=
  [ sample_row 40 (-70) 0 "00:00:00" None None;
    sample_row 40 (-70) 60000 "00:01:00" None None ].

(** Three points a minute apart, each north-west of the one before. *)
Definition three_rows : list Row :=
  [ sample_row 40 (-70) 0 "00:00:00" None None;
    sample_row (4001 / 100) (-7001 / 100) 60000 "00:01:00" None None;
    sample_row (4002 / 100) (-7002 / 100) 120000 "00:02:00" None None ].

Definition origin_marker : Feature := {| coordinates := []; coordTimes := [] |}.

(** The features of a KML whose trajectory is [trajectory]. *)
Definition kml (trajectory : Feature) : list Feature :=
  [origin_marker; origin_marker; trajectory].

Definition point (longitude latitude meters : R) : coordinate :=
  {| c_lon := longitude; c_lat := latitude; c_alt := meters |}.

(** Two coordinates a minute apart at one position. *)
Definition hover : Feature :=
  {| coordinates := [point (-70) 40 100; point (-70) 40 200];
     coordTimes := [TimeValue 0; TimeValue 60000] |}.

(** A trajectory of a single coordinate. *)
Definition single_point : Feature :=
  {| coordinates := [point (-70) 40 100]; coordTimes := [TimeValue 0] |}.

(** *** More text notions *)

(** The two characters that delimit the output: the comma between fields
    and the line feed between lines. *)
Definition separator (c : ascii) : Prop := c = comma \/ c = newline.

(** The text made of the given lines, each followed by a line feed. *)
Fixpoint unlines (ls : list string) : string :=
  match ls with
  | [] => EmptyString
  | l :: ls' => l ++ nl ++ unlines ls'
  end.

(** The strings a row carries do not contain the character [c]. *)
Definition row_avoids (c : ascii) (row : Row) : Prop :=
  occurs c (date row) = false /\ occurs c (time row) = false /\
  occurs c (zone row) = false /\ occurs c (pitch row) = false /\
  occurs c (bank row) = false.

(** A property of rows that the assignments to [spd] and [hdg] keep. *)
Definition stable (P : Row -> Prop) : Prop :=
  (forall row v, P row -> P (with_spd row v)) /\
  (forall row v, P row -> P (with_hdg row v)).

(** The default name of the output file of [main.js]. *)
Definition default_filename (host : Host) (ident : string) (row0 : Row)
    : string :=
  "outputs/" ++ toLocaleUpperCase host ident ++ "-"
  ++ format host (t row0) "yyyy-LL-dd-kk:mm" ++ ".csv".

(** Three coordinates a minute apart, each north-west of the one before. *)
Definition climb : Feature :=
  {| coordinates :=
       [ point (-70) 40 100;
         point (-7001 / 100) (4001 / 100) 200;
         point (-7002 / 100) (4002 / 100) 300 ];
     coordTimes := [TimeValue 0; TimeValue 60000; TimeValue 120000] |}.

(** The [--output] option when it is given and not empty ([args.output],
    as [||] reads it). *)
Definition given_name (args_output : option string) : option string :=
  match args_output with
  | Some o => if String.eqb o "" then None else Some o
  | None => None
  end.

(** The first point of the first Track. *)
Definition first_point (tracks : list (list Row)) : option Row :=
  match tracks with
  | (row0 :: _) :: _ => Some row0
  | _ => None
  end.

End Props.

(** ** The multi-source program: urls, links and the command line *)

Module Cli.

Import JS Track.
Local Open Scope string_scope.

(** A [URL] object, as far as the program reads it. *)
Record URL : Type := { href : string; pathname : string }.

(** [urls.filter((url, index, self) =>
      self.findIndex(t => t.href === url.href) === index)] *)
Definition remove_duplicate_urls (urls : list URL) : list URL :=
  JS.filter
    (fun url index self =>
       (findIndex (fun t0 => String.eqb (href t0) (href url)) self =? index)%Z)
    urls.

(** [pieces.pop()]: the last element, [undefined] on an empty array. *)
Definition pop (pieces : list string) : option string :=
  match pieces with
  | [] => None
  | _ :: _ => Some (last pieces EmptyString)
  end.

(** The link of the KML file of a url: the url itself when its last
    [/]-separated piece is [google_earth], the url followed by
    [/google_earth] otherwise. *)
Definition link_of (url : URL) : string :=
  match pop (split "/"%char (href url)) with
  | Some piece =>
      if String.eqb piece "google_earth" then href url
      else href url ++ "/google_earth"
  | None => href url ++ "/google_earth"
  end.

(** [url.pathname.split('/')[3]]: the ident of a FlightAware link, or
    [undefined]. *)
Definition ident_of (url : URL) : option string :=
  nth_error (split "/"%char (pathname url)) 3.

(** The collaborators of a command-line run: [new URL(val.trim())], which
    throws [ERR_INVALID_URL] on a string that is no url ([None]), and
    parse-kml's [toJson], as the features of the KML it returns, [None]
    when it throws. *)
Record Net : Type := {
  new_URL : string -> option URL;
  toJson : string -> option (list Feature)
}.

(** [args.urls.map(val => new URL(val.trim()))]; [None] when a string is
    no url. *)
Fixpoint parse_urls (net : Net) (vals : list string) : option (list URL) :=
  match vals with
  | [] => Some []
  | val :: rest =>
      match new_URL net val with
      | None => None
      | Some url =>
          match parse_urls net rest with
          | None => None
          | Some urls => Some (url :: urls)
          end
      end
  end.

(** One iteration of the loop over the urls, from the fetch on; [None] is
    an exception, which the [catch] around the loop receives. *)
Definition fetch_and_process (net : Net) (host : Host) (st : Multi.state)
    (url : URL) : option Multi.state :=
  match toJson net (link_of url) with
  | None => None
  | Some features =>
      match Multi.process_url host st features with
      | Ok st => Some st
      | Throw _ => None
      end
  end.

Fixpoint for_each_url (net : Net) (host : Host) (st : Multi.state)
    (urls : list URL) : option Multi.state :=
  match urls with
  | [] => Some st
  | url :: rest =>
      match fetch_and_process net host st url with
      | None => None
      | Some st => for_each_url net host st rest
      end
  end.

(** What follows the loop: the name of the file and the write. *)
Definition finish (host : Host) (ident model : string)
    (args_output : option string) (st : Multi.state) : Multi.outcome :=
  let default :=
    match Multi.first_timestamp st with
    | None => Throw RangeError
    | Some ts =>
        Ok ("outputs/" ++ toLocaleUpperCase host ident ++ "-"
            ++ format host ts "yyyy-LL-dd-HH:mm" ++ ".csv")
    end in
  let filename :=
    match args_output with
    | None => default
    | Some o => if String.eqb o "" then default else Ok o
    end in
  match filename with
  | Throw e => Multi.Uncaught e
  | Ok filename =>
      Multi.Written filename (header host model ident ++ Multi.output st)
  end.

(** [main] on the command-line branch ([args.urls] is defined): the help
    flag, the options [-i], [-m] and [-o], and the url strings.  An
    invalid url ends the process with status 1; any other exception of
    the first [try] leaves [main]; so does the [TypeError] of
    [ident.toLocaleUpperCase()] on an [undefined] ident. *)
Definition main (net : Net) (host : Host) (args_help : bool)
    (args_ident args_model args_output : option string)
    (args_urls : list string) : Multi.outcome :=
  let model :=
    match args_model with
    | Some m => if String.eqb m "" then "C172" else m
    | None => "C172"
    end in
  if args_help then Multi.Exit 0
  else
    match parse_urls net args_urls with
    | None => Multi.Exit 1
    | Some urls =>
        let ident :=
          match args_ident with
          | Some ident => Ok (Some ident)
          | None =>
              match urls with
              | [] => Throw TypeError
              | url :: _ => Ok (ident_of url)
              end
          end in
        match ident with
        | Throw e => Multi.Uncaught e
        | Ok ident =>
            let urls := remove_duplicate_urls urls in
            match ident with
            | None => Multi.Uncaught TypeError
            | Some ident =>
                match
                  for_each_url net host
                    {| Multi.output := ""; Multi.first_timestamp := None |}
                    urls
                with
                | None => Multi.Exit 1
                | Some st => finish host ident model args_output st
                end
            end
        end
    end.

End Cli.

(** ** More notions for properties *)

Module More.

Import JS Track Props.
Local Open Scope string_scope.

(** *** First occurrences by a key *)

Section Keys.

Context {A K : Type}.
Variable key : A -> K.
Variable eqb : K -> K -> bool.

(** The filter of the source, for any key: an element is kept when the
    first element with its key is itself. *)
Definition first_occurrence_filter (l : list A) : list A :=
  JS.filter
    (fun x index self =>
       (findIndex (fun y => eqb (key y) (key x)) self =? index)%Z)
    l.

(** A scan that keeps an element exactly when its key is not among the
    keys [seen] so far. *)
Fixpoint scan (seen : list K) (l : list A) : list A :=
  match l with
  | [] => []
  | x :: rest =>
      if existsb (eqb (key x)) seen then scan (key x :: seen) rest
      else x :: scan (key x :: seen) rest
  end.

End Keys.

(** The distinct time values of a list, in the order of their first
    occurrences. *)
Definition distinct_times (mss : list Z) : list Z :=
  scan (fun ms => ms) Z.eqb [] mss.

(** *** Sources with valid times *)

(** The coordinates of [feat] have the valid dates [mss], one each. *)
Definition times_are (feat : Feature) (mss : list Z) : Prop :=
  List.length mss = List.length (coordinates feat) /\
  firstn (List.length (coordinates feat)) (coordTimes feat)
  = map TimeValue mss.

(** The row is built from a coordinate of [feat] and the date at the
    same index. *)
Definition from_source (feat : Feature) (row : Row) : Prop :=
  exists i coord ms,
    nth_error (coordinates feat) i = Some coord /\
    nth i (coordTimes feat) InvalidDate = TimeValue ms /\
    lat row = c_lat coord /\ lon row = c_lon coord /\
    alt row = Math_round (c_alt coord * (3280839895 / 1000000000)) /\
    t row = ms.

(** *** Distances *)

(** Half the circumference of the sphere, in nautical miles. *)
Definition half_circumference : R :=
  (6378137 / 1000 * PI / (18520000016 / 10000000000))%R.

(** *** Column widths *)

(** Every value of the row fits the column the template pads it to. *)
Definition fits (host : Host) (row : Row) : Prop :=
  (String.length (date row) <= 10)%nat /\
  (String.length (time row) <= 9)%nat /\
  (String.length (zone row) <= 8)%nat /\
  (String.length (Number_toString host (lat row)) <= 13)%nat /\
  (String.length (Number_toString host (lon row)) <= 13)%nat /\
  (String.length (String_int (alt row)) <= 8)%nat /\
  (String.length (String_opt (spd row)) <= 7)%nat /\
  (String.length (pitch row) <= 7)%nat /\
  (String.length (bank row) <= 7)%nat /\
  (String.length (String_opt (hdg row)) <= 7)%nat.

(** The sum of the 40 column widths and the 39 commas. *)
Definition line_width : nat :=
  Eval vm_compute in
    (39 + list_sum
            [10; 9; 8; 7; 13; 13; 8; 6; 8; 6; 7; 7; 8; 7; 7; 7; 8; 5; 6; 6;
             7; 7; 9; 9; 8; 8; 7; 7; 8; 8; 8; 8; 8; 8; 8; 8; 8; 4; 5; 7])%nat.

(** *** Sample data *)

(** A FlightAware link, with and without the [google_earth] piece. *)
Definition flight_url : Cli.URL :=
  {| Cli.href :=
       "https://www.flightaware.com/live/flight/N12345/history/20240501/0000Z/KBOS/KJFK";
     Cli.pathname := "/live/flight/N12345/history/20240501/0000Z/KBOS/KJFK" |}.

Definition flight_url_google_earth : Cli.URL :=
  {| Cli.href :=
       "https://www.flightaware.com/live/flight/N12345/history/20240501/0000Z/KBOS/KJFK/google_earth";
     Cli.pathname :=
       "/live/flight/N12345/history/20240501/0000Z/KBOS/KJFK/google_earth" |}.

(** A net that knows the two links above and fetches the three-point
    source for them. *)
Definition sample_net : Cli.Net :=
  {| Cli.new_URL := fun val =>
       if String.eqb val (Cli.href flight_url) then Some flight_url
       else if String.eqb val (Cli.href flight_url_google_earth)
            then Some flight_url_google_earth
            else None;
     Cli.toJson := fun link =>
       if String.eqb link (Cli.href flight_url_google_earth)
       then Some (kml climb) else None |}.

End More.

(** ** Facts about the built-ins and the helpers *)

Section NumericFacts.

Import JS Geo.
Local Open Scope R_scope.

Lemma Math_atan2_range (y x : R) : - PI < Math_atan2 y x <= PI.
Proof.
  pose proof PI_RGT_0 as Hpi.
  unfold Math_atan2.
  destruct (Rlt_dec 0 x) as [Hx | Hx].
  - pose proof (atan_bound (y / x)). lra.
  - destruct (Rlt_dec x 0) as [Hx' | Hx'].
    + pose proof (atan_bound (y / x)) as Hb.
      destruct (Rle_dec 0 y) as [Hy | Hy].
      * assert (Hq : y / x <= 0).
        { pose proof (Rinv_lt_0_compat x Hx'). unfold Rdiv. nra. }
        assert (Ha : atan (y / x) <= 0).
        { rewrite <- atan_0. destruct Hq as [Hq | Hq].
          - left. now apply atan_increasing.
          - rewrite Hq. right. reflexivity. }
        lra.
      * assert (Hq : 0 < y / x).
        { pose proof (Rinv_lt_0_compat x Hx'). unfold Rdiv. nra. }
        assert (Ha : 0 < atan (y / x)).
        { rewrite <- atan_0. now apply atan_increasing. }
        lra.
    + destruct (Rlt_dec 0 y); [lra |].
      destruct (Rlt_dec y 0); lra.
Qed.

Lemma rem_pos_range (a b : R) : 0 <= a -> 0 < b -> 0 <= rem a b < b.
Proof.
  intros Ha Hb. unfold rem, trunc.
  assert (Hq : 0 <= a / b).
  { unfold Rdiv. apply Rmult_le_pos; [exact Ha |].
    left. now apply Rinv_0_lt_compat. }
  destruct (Rle_dec 0 (a / b)) as [_ | Hn]; [| contradiction].
  pose proof (Zfloor_bound (a / b)) as [Hlo Hhi].
  assert (Hab : a = b * (a / b)) by (field; lra).
  split.
  - assert (b * IZR (Zfloor (a / b)) <= b * (a / b)) by
      (apply Rmult_le_compat_l; lra).
    lra.
  - assert (b * (a / b) < b * (IZR (Zfloor (a / b)) + 1)) by
      (apply Rmult_lt_compat_l; lra).
    lra.
Qed.

Lemma toDegrees_range (r : R) : - PI < r <= PI -> - 180 < toDegrees r <= 180.
Proof.
  intros [Hlo Hhi]. pose proof PI_RGT_0 as Hpi. unfold toDegrees.
  assert (Hinv : 0 < / PI) by now apply Rinv_0_lt_compat.
  assert (H180 : PI * 180 / PI = 180) by (field; lra).
  split.
  - assert (- PI * 180 * / PI < r * 180 * / PI) by
      (apply Rmult_lt_compat_r; lra).
    unfold Rdiv in *. lra.
  - assert (r * 180 * / PI <= PI * 180 * / PI) by
      (apply Rmult_le_compat_r; lra).
    unfold Rdiv in *. lra.
Qed.

End NumericFacts.

(** ** The duplicate-timestamp filter *)

Section Duplicates.

Import JS Track Props.
Local Open Scope Z_scope.

Lemma findIndex_from_hit (A : Type) (p : A -> bool) (pre : list A) (x : A)
    (post : list A) (i : Z) :
  existsb p pre = false -> p x = true ->
  findIndex_from p (pre ++ x :: post) i = i + Z.of_nat (List.length pre).
Proof.
  revert i. induction pre as [| y pre IH]; intros i Hpre Hx; simpl in *.
  - rewrite Hx. lia.
  - apply orb_false_iff in Hpre as [Hy Hpre]. rewrite Hy.
    rewrite IH by assumption. lia.
Qed.

Lemma findIndex_from_early (A : Type) (p : A -> bool) (pre post : list A)
    (i : Z) :
  existsb p pre = true ->
  findIndex_from p (pre ++ post) i < i + Z.of_nat (List.length pre).
Proof.
  revert i. induction pre as [| y pre IH]; intros i Hpre; simpl in *.
  - discriminate.
  - destruct (p y) eqn:Hy.
    + lia.
    + simpl in Hpre. specialize (IH (i + 1) Hpre). lia.
Qed.

(** The callback of the filter, at the row that follows [pre]: the row is
    kept exactly when no row of [pre] has its time value. *)
Lemma first_occurrence_test (pre : list Row) (row : Row) (post : list Row) :
  (findIndex (fun t0 => t t0 =? t row) (pre ++ row :: post)
     =? Z.of_nat (List.length pre))
  = negb (existsb (fun t0 => t t0 =? t row) pre).
Proof.
  unfold findIndex.
  destruct (existsb (fun t0 => t t0 =? t row) pre) eqn:Hpre; simpl.
  - pose proof (findIndex_from_early _ _ pre (row :: post) 0 Hpre) as Hearly.
    apply Z.eqb_neq. lia.
  - rewrite findIndex_from_hit; [apply Z.eqb_eq; lia | exact Hpre |].
    apply Z.eqb_refl.
Qed.

Lemma filter_from_scan (l pre : list Row) (seen : list Z) :
  (forall k, existsb (Z.eqb k) seen = existsb (fun r => t r =? k) pre) ->
  filter_from
    (fun row index self =>
       findIndex (fun t0 => t t0 =? t row) self =? index)
    (pre ++ l) l (Z.of_nat (List.length pre))
  = keep_first_occurrences t seen l.
Proof.
  revert pre seen. induction l as [| row rest IH]; intros pre seen Hseen.
  - reflexivity.
  - cbn [filter_from keep_first_occurrences].
    rewrite first_occurrence_test, Hseen.
    assert (Hnext :
      filter_from
        (fun row index self =>
           findIndex (fun t0 => t t0 =? t row) self =? index)
        (pre ++ row :: rest) rest (Z.of_nat (List.length pre) + 1)
      = keep_first_occurrences t (t row :: seen) rest).
    { replace (pre ++ row :: rest) with ((pre ++ [row]) ++ rest)
        by (rewrite <- app_assoc; reflexivity).
      replace (Z.of_nat (List.length pre) + 1)
        with (Z.of_nat (List.length (pre ++ [row])))
        by (rewrite length_app; simpl; lia).
      apply IH. intro k. simpl. rewrite existsb_app. simpl.
      rewrite Hseen, orb_false_r, (Z.eqb_sym k (t row)).
      apply orb_comm. }
    rewrite Hnext.
    destruct (existsb (fun r => t r =? t row) pre); reflexivity.
Qed.

Lemma remove_duplicate_rows_scan (rows : list Row) :
  remove_duplicate_rows rows = keep_first_occurrences t [] rows.
Proof.
  unfold remove_duplicate_rows, JS.filter.
  apply (filter_from_scan rows [] []). intro k. reflexivity.
Qed.

Lemma keep_first_occurrences_again (key : Row -> Z) (rows : list Row)
    (seen seen' : list Z) :
  (forall k, existsb (Z.eqb k) seen' = true -> existsb (Z.eqb k) seen = true) ->
  keep_first_occurrences key seen' (keep_first_occurrences key seen rows)
  = keep_first_occurrences key seen rows.
Proof.
  revert seen seen'. induction rows as [| row rest IH]; intros seen seen' Hsub.
  - reflexivity.
  - assert (Hsub' : forall k,
        existsb (Z.eqb k) (key row :: seen') = true ->
        existsb (Z.eqb k) (key row :: seen) = true).
    { intros k. simpl. rewrite !orb_true_iff. intros [H | H]; auto. }
    simpl. destruct (existsb (Z.eqb (key row)) seen) eqn:Hrow.
    + apply IH. intros k Hk. simpl. rewrite (Hsub k Hk). apply orb_true_r.
    + simpl. destruct (existsb (Z.eqb (key row)) seen') eqn:Hrow'.
      * rewrite (Hsub _ Hrow') in Hrow. discriminate.
      * f_equal. now apply IH.
Qed.

End Duplicates.

(** ** Distance, speed and heading *)

Section DerivedFields.

Import JS Geo Track Props.
Local Open Scope R_scope.

Lemma Math_atan2_pos (y x : R) : 0 < y -> 0 <= x -> 0 < Math_atan2 y x.
Proof.
  intros Hy Hx. pose proof PI_RGT_0 as Hpi. unfold Math_atan2.
  destruct (Rlt_dec 0 x) as [Hpos | Hnpos].
  - rewrite <- atan_0. apply atan_increasing.
    pose proof (Rinv_0_lt_compat x Hpos). unfold Rdiv. nra.
  - destruct (Rlt_dec x 0) as [Hneg | _]; [lra |].
    destruct (Rlt_dec 0 y) as [_ | Hny]; lra.
Qed.

Lemma getDistance_same (latitude longitude : R) :
  getDistanceFromLatLonInNm latitude longitude latitude longitude = 0.
Proof.
  unfold getDistanceFromLatLonInNm, deg2rad. cbv zeta.
  replace (latitude - latitude) with 0 by ring.
  replace (longitude - longitude) with 0 by ring.
  replace (0 * (PI / 180) / 2) with 0 by (unfold Rdiv; ring).
  rewrite sin_0.
  replace (0 * 0 + cos (latitude * (PI / 180)) * cos (latitude * (PI / 180))
             * 0 * 0) with 0 by ring.
  rewrite Rminus_0_r, sqrt_0, sqrt_1.
  assert (Hc : Math_atan2 0 1 = 0).
  { unfold Math_atan2. destruct (Rlt_dec 0 1) as [_ | H]; [| lra].
    unfold Rdiv. rewrite Rmult_0_l. apply atan_0. }
  rewrite Hc. unfold Rdiv. ring.
Qed.

(** Two points of different latitude, neither at a pole, are apart. *)
Lemma getDistance_pos (lat1 lon1 lat2 lon2 : R) :
  -90 < lat1 < 90 -> -90 < lat2 < 90 -> lat1 <> lat2 ->
  0 < getDistanceFromLatLonInNm lat1 lon1 lat2 lon2.
Proof.
  intros H1 H2 Hne. pose proof PI_RGT_0 as Hpi.
  unfold getDistanceFromLatLonInNm, deg2rad. cbv zeta.
  set (s := sin ((lat2 - lat1) * (PI / 180) / 2)).
  set (s2 := sin ((lon2 - lon1) * (PI / 180) / 2)).
  set (c1 := cos (lat1 * (PI / 180))).
  set (c2 := cos (lat2 * (PI / 180))).
  assert (Hc1 : 0 < c1) by (apply cos_gt_0; nra).
  assert (Hc2 : 0 < c2) by (apply cos_gt_0; nra).
  assert (Hs : s <> 0).
  { unfold s. destruct (Rlt_dec lat1 lat2) as [Hlt | Hge].
    - apply Rgt_not_eq. apply sin_gt_0; nra.
    - apply Rlt_not_eq. apply sin_lt_0_var; nra. }
  assert (Ha : 0 < s * s + c1 * c2 * s2 * s2).
  { assert (0 < s * s) by nra.
    assert (0 <= c1 * c2 * (s2 * s2)) by
      (apply Rmult_le_pos; [nra | apply Rle_0_sqr]).
    nra. }
  pose proof (Math_atan2_pos _ _ (sqrt_lt_R0 _ Ha)
                (sqrt_pos (1 - (s * s + c1 * c2 * s2 * s2)))) as Hc.
  apply Rdiv_lt_0_compat; nra.
Qed.

Lemma speed_and_heading_same (last row : Row) :
  distance last row = 0 ->
  speed_and_heading last row = with_hdg (with_spd row None) None.
Proof.
  intro H. unfold speed_and_heading. fold (distance last row).
  destruct (Req_dec_T (distance last row) 0) as [_ | Hne];
    [reflexivity | contradiction].
Qed.

Lemma speed_and_heading_apart (last row : Row) :
  distance last row <> 0 -> defined (speed_and_heading last row).
Proof.
  intro H. unfold speed_and_heading. fold (distance last row).
  destruct (Req_dec_T (distance last row) 0) as [He | _];
    [contradiction |].
  split; eexists; reflexivity.
Qed.

Lemma speed_and_heading_position (last row : Row) :
  lat (speed_and_heading last row) = lat row /\
  lon (speed_and_heading last row) = lon row.
Proof.
  unfold speed_and_heading.
  destruct (Req_dec_T _ 0); split; reflexivity.
Qed.

Lemma distance_position (a a' b : Row) :
  lat a' = lat a -> lon a' = lon a -> distance a' b = distance a b.
Proof. intros Hlat Hlon. unfold distance. now rewrite Hlat, Hlon. Qed.

Lemma loop_length (rows : list Row) (last : Row) :
  List.length (speed_and_heading_loop last rows) = List.length rows.
Proof.
  revert last. induction rows as [| row rest IH]; intro last; simpl;
    [reflexivity | now rewrite IH].
Qed.

Lemma loop_defined (rows : list Row) (last last' : Row) :
  lat last' = lat last -> lon last' = lon last ->
  apart last rows -> Forall defined (speed_and_heading_loop last' rows).
Proof.
  revert last last'.
  induction rows as [| row rest IH]; intros last last' Hlat Hlon Hap.
  - constructor.
  - destruct Hap as [Hd Hap]. simpl. constructor.
    + apply speed_and_heading_apart.
      now rewrite (distance_position last last' row).
    + destruct (speed_and_heading_position last' row) as [Hlat' Hlon'].
      now apply (IH row).
Qed.

End DerivedFields.

Lemma backfill_after_pass (rows : list Track.Row) :
  (2 <= List.length rows)%nat ->
  Props.consecutive_apart rows ->
  exists track,
    Track.backfill (Track.calculate_speed_and_heading rows) = JS.Ok track /\
    List.length track = List.length rows /\
    Forall Props.defined track.
Proof.
  intros Hlen Hap.
  destruct rows as [| row0 [| row1 rest]]; simpl in Hlen; try lia.
  destruct Hap as [Hd Hap].
  unfold Track.calculate_speed_and_heading.
  cbn [Track.speed_and_heading_loop].
  rewrite (speed_and_heading_same row0 row0)
    by (apply getDistance_same).
  set (first := Track.with_hdg (Track.with_spd row0 None) None).
  assert (H1 : Props.defined (Track.speed_and_heading first row1)).
  { apply speed_and_heading_apart.
    now rewrite (distance_position row0 first row1). }
  destruct (speed_and_heading_position first row1) as [Hlat Hlon].
  pose proof (loop_defined rest row1 (Track.speed_and_heading first row1)
                Hlat Hlon Hap) as Hrest.
  destruct H1 as [[v Hv] [h Hh]].
  eexists. split; [| split].
  - unfold Track.backfill. cbn [Track.spd first Track.with_hdg Track.with_spd
      JS.bind Track.hdg]. reflexivity.
  - simpl. now rewrite loop_length.
  - constructor; [| constructor].
    + split; [exists v | exists h]; simpl; assumption.
    + split; [exists v | exists h]; assumption.
    + exact Hrest.
Qed.

(** ** Text: separators, fields and lines *)

Ltac either_separator H := destruct H as [-> | ->]; reflexivity.

Section Strings.

Import JS Props.
Local Open Scope string_scope.

Lemma string_app_assoc (a b c : string) : (a ++ b) ++ c = a ++ b ++ c.
Proof. induction a as [| x a IH]; simpl; [reflexivity | now rewrite IH]. Qed.

Lemma string_app_nil_r (a : string) : a ++ "" = a.
Proof. induction a as [| x a IH]; simpl; [reflexivity | now rewrite IH]. Qed.

Lemma occurs_app (c : ascii) (a b : string) :
  occurs c (a ++ b) = occurs c a || occurs c b.
Proof.
  induction a as [| x a IH]; simpl; [reflexivity |].
  now rewrite IH, orb_assoc.
Qed.

Lemma occurs_concat (c : ascii) (sep : string) (fields : list string) :
  occurs c sep = false ->
  Forall (fun f => occurs c f = false) fields ->
  occurs c (String.concat sep fields) = false.
Proof.
  intros Hsep Hall. induction Hall as [| f fields Hf Hall IH];
    [reflexivity |].
  simpl. destruct fields as [| g fields]; [exact Hf |].
  now rewrite !occurs_app, Hf, Hsep, IH.
Qed.

Lemma split_clean (sep : ascii) (s : string) :
  occurs sep s = false -> split sep s = [s].
Proof.
  induction s as [| x s IH]; simpl; [reflexivity |].
  intro H. apply orb_false_iff in H as [Hx Hs].
  now rewrite Hx, IH.
Qed.

Lemma split_app (sep : ascii) (s rest : string) :
  occurs sep s = false ->
  split sep (s ++ String sep rest) = s :: split sep rest.
Proof.
  induction s as [| x s IH]; simpl.
  - intros _. now rewrite Ascii.eqb_refl.
  - intro H. apply orb_false_iff in H as [Hx Hs].
    now rewrite Hx, IH.
Qed.

Lemma split_concat (sep : ascii) (field : string) (fields : list string) :
  Forall (fun f => occurs sep f = false) (field :: fields) ->
  split sep (String.concat (String sep "") (field :: fields))
  = field :: fields.
Proof.
  revert field. induction fields as [| g fields IH]; intros field Hall.
  - simpl. apply split_clean. now inversion Hall.
  - inversion Hall as [| ? ? Hf Hrest]; subst.
    change (String.concat (String sep "") (field :: g :: fields))
      with (field ++ String sep (String.concat (String sep "") (g :: fields))).
    rewrite split_app by exact Hf. now rewrite IH.
Qed.

Lemma split_unlines (ls : list string) :
  Forall (fun l => occurs newline l = false) ls ->
  split newline (unlines ls) = (ls ++ [""])%list.
Proof.
  induction 1 as [| l ls Hl Hall IH]; [reflexivity |].
  change (unlines (l :: ls)) with (l ++ String newline (unlines ls)).
  rewrite split_app by exact Hl. now rewrite IH.
Qed.

Lemma lines_unlines (ls : list string) :
  Forall (fun l => occurs newline l = false) ls ->
  lines (unlines ls) = ls.
Proof.
  intro Hall. unfold lines. rewrite split_unlines by exact Hall.
  rewrite last_last. apply removelast_last.
Qed.

Lemma unlines_app (ls ls' : list string) :
  unlines (ls ++ ls')%list = unlines ls ++ unlines ls'.
Proof.
  induction ls as [| l ls IH]; simpl; [reflexivity |].
  now rewrite IH, !string_app_assoc.
Qed.

End Strings.

(** What the program prints around the values never holds a separator. *)
Section Separators.

Import JS Track Props.
Local Open Scope string_scope.

Variable c : ascii.
Hypothesis c_separator : separator c.

Lemma occurs_spaces (n : nat) : occurs c (spaces n) = false.
Proof.
  induction n as [| n IH]; simpl; [reflexivity |].
  rewrite IH. either_separator c_separator.
Qed.

Lemma occurs_padStart (n : nat) (s : string) :
  occurs c (padStart n s) = occurs c s.
Proof. unfold padStart. now rewrite occurs_app, occurs_spaces. Qed.

Lemma occurs_padEnd (n : nat) (s : string) :
  occurs c (padEnd n s) = occurs c s.
Proof.
  unfold padEnd. now rewrite occurs_app, occurs_spaces, orb_false_r.
Qed.

Lemma occurs_uint (d : Decimal.uint) :
  occurs c (NilEmpty.string_of_uint d) = false.
Proof.
  induction d as [| d IH | d IH | d IH | d IH | d IH | d IH
                  | d IH | d IH | d IH | d IH]; simpl;
    try rewrite IH; either_separator c_separator.
Qed.

Lemma occurs_String_int (z : Z) : occurs c (String_int z) = false.
Proof.
  unfold String_int, NilZero.string_of_int.
  assert (Hu : forall d, occurs c (NilZero.string_of_uint d) = false).
  { intro d. unfold NilZero.string_of_uint.
    destruct d; try apply occurs_uint. either_separator c_separator. }
  destruct (Z.to_int z) as [d | d]; simpl; rewrite ?Hu;
    [reflexivity | either_separator c_separator].
Qed.

Lemma occurs_String_opt (v : option Z) : occurs c (String_opt v) = false.
Proof.
  destruct v as [z |]; simpl;
    [apply occurs_String_int | either_separator c_separator].
Qed.

Variable host : Host.
Hypothesis number_avoids :
  forall x, occurs c (Number_toString host x) = false.

Lemma row_fields_avoid (row : Row) :
  row_avoids c row ->
  Forall (fun f => occurs c f = false) (row_fields host row).
Proof.
  intros (Hdate & Htime & Hzone & Hpitch & Hbank).
  unfold row_fields.
  repeat constructor;
    rewrite ?occurs_padStart, ?occurs_padEnd, ?occurs_String_int,
      ?occurs_String_opt, ?number_avoids;
    try assumption; try reflexivity; either_separator c_separator.
Qed.

End Separators.

Section Rendering.

Import JS Track Props.
Local Open Scope string_scope.

Variable host : Host.

(** The template literal is its fields, joined by commas, and a line
    feed. *)
Lemma render_row_data_line (row : Row) :
  render_row host row = data_line host row ++ nl.
Proof.
  unfold data_line, row_fields. cbn [String.concat].
  rewrite !string_app_assoc. reflexivity.
Qed.

Lemma row_fields_length (row : Row) :
  List.length (row_fields host row) = 40%nat.
Proof. reflexivity. Qed.

Lemma data_line_fields (row : Row) :
  (forall x, occurs comma (Number_toString host x) = false) ->
  row_avoids comma row ->
  split comma (data_line host row) = row_fields host row.
Proof.
  intros Hnum Hrow. unfold data_line.
  pose proof (row_fields_avoid comma (or_introl eq_refl) host Hnum row Hrow) as Hall.
  remember (row_fields host row) as fields eqn:Hfields.
  destruct fields as [| field fields]; [discriminate Hfields |].
  now apply (split_concat comma).
Qed.

Lemma data_line_one_line (row : Row) :
  (forall x, occurs newline (Number_toString host x) = false) ->
  row_avoids newline row ->
  occurs newline (data_line host row) = false.
Proof.
  intros Hnum Hrow. unfold data_line.
  apply occurs_concat; [reflexivity |].
  exact (row_fields_avoid newline (or_intror eq_refl) host Hnum row Hrow).
Qed.

Lemma write_rows_unlines (rows : list Row) (output : string) :
  write_rows host rows output
  = output ++ unlines (map (data_line host) rows).
Proof.
  unfold write_rows. revert output.
  induction rows as [| row rows IH]; intro output; simpl.
  - now rewrite string_app_nil_r.
  - now rewrite IH, render_row_data_line, !string_app_assoc.
Qed.

Lemma write_rows_app (rows rows' : list Row) (output : string) :
  write_rows host (rows ++ rows')%list output
  = write_rows host rows' (write_rows host rows output).
Proof. unfold write_rows. apply fold_left_app. Qed.

Lemma header_unlines (model ident : string) :
  header host model ident
  = unlines [airframe_line host model ident; units_row; names_row].
Proof. unfold header, unlines. now rewrite string_app_nil_r. Qed.

End Rendering.

(** ** What the pipeline preserves *)

Section Pipeline.

Import JS Track Props.
Local Open Scope string_scope.

Lemma bind_Ok (A B : Type) (m : result A) (k : A -> result B) (b : B) :
  (x <- m ;; k x) = Ok b -> exists a, m = Ok a /\ k a = Ok b.
Proof. destruct m as [a | e]; simpl; [eauto | discriminate]. Qed.

Lemma filter_from_Forall (A : Type) (P : A -> Prop)
    (cb : A -> Z -> list A -> bool) (self l : list A) (index : Z) :
  Forall P l -> Forall P (filter_from cb self l index).
Proof.
  intro Hall. revert index.
  induction Hall as [| x l Hx Hall IH]; intro index; simpl.
  - constructor.
  - destruct (cb x index self); [constructor |]; auto.
Qed.

(** The assignments of the second loop and of the backfill. *)
Section Stable.

Variable P : Row -> Prop.
Hypothesis P_stable : stable P.

Lemma speed_and_heading_stable (last row : Row) :
  P row -> P (speed_and_heading last row).
Proof.
  destruct P_stable as [Hspd Hhdg]. intro H. unfold speed_and_heading.
  destruct (Req_dec_T _ 0); apply Hhdg, Hspd, H.
Qed.

Lemma loop_stable (rows : list Row) (last : Row) :
  Forall P rows -> Forall P (speed_and_heading_loop last rows).
Proof.
  intro Hall. revert last.
  induction Hall as [| row rows Hrow Hall IH]; intro last; simpl;
    constructor; [now apply speed_and_heading_stable | apply IH].
Qed.

Lemma calculate_stable (rows : list Row) :
  Forall P rows -> Forall P (calculate_speed_and_heading rows).
Proof.
  intro Hall. destruct rows as [| row0 rest]; [constructor |].
  now apply loop_stable.
Qed.

Lemma backfill_stable (rows track : list Row) :
  Forall P rows -> backfill rows = Ok track -> Forall P track.
Proof.
  destruct P_stable as [Hspd Hhdg].
  intro Hall. destruct Hall as [| row0 rest H0 Hrest]; [discriminate |].
  unfold backfill. intro H.
  apply bind_Ok in H as (a & Ha & H).
  apply bind_Ok in H as (b & Hb & H). injection H as <-.
  assert (Pa : P a).
  { destruct (spd row0); [now injection Ha as <- |].
    destruct rest; [discriminate |]. injection Ha as <-. now apply Hspd. }
  constructor; [| exact Hrest].
  destruct (hdg a); [now injection Hb as <- |].
  destruct rest; [discriminate |]. injection Hb as <-. now apply Hhdg.
Qed.

End Stable.

Lemma backfill_first (rows track : list Row) :
  backfill rows = Ok track ->
  exists row0 row0' rest,
    rows = row0 :: rest /\ track = row0' :: rest /\ t row0' = t row0.
Proof.
  destruct rows as [| row0 rest]; [discriminate |].
  unfold backfill. intro H.
  apply bind_Ok in H as (a & Ha & H).
  apply bind_Ok in H as (b & Hb & H). injection H as <-.
  exists row0, b, rest. repeat split.
  assert (Hta : t a = t row0).
  { destruct (spd row0); [now injection Ha as <- |].
    destruct rest; [discriminate |]. now injection Ha as <-. }
  rewrite <- Hta.
  destruct (hdg a); [now injection Hb as <- |].
  destruct rest; [discriminate |]. now injection Hb as <-.
Qed.

Variable host : Host.
Variable pattern : string.

Lemma stable_built : stable (built host pattern).
Proof. split; intros row v H; exact H. Qed.

Lemma new_row_built (coord : coordinate) (d : Date) (row : Row) :
  new_row host pattern coord d = Ok row -> built host pattern row.
Proof.
  destruct d as [ms |]; simpl; [| discriminate].
  intro H. injection H as <-. repeat split.
Qed.

Lemma push_rows_built (coords : list coordinate) (times : list Date)
    (i : nat) (rows : list Row) :
  push_rows host pattern coords times i = Ok rows ->
  Forall (built host pattern) rows.
Proof.
  revert i rows. induction coords as [| coord rest IH]; intros i rows; simpl.
  - intro H. injection H as <-. constructor.
  - intro H. apply bind_Ok in H as (row & Hrow & H).
    apply bind_Ok in H as (rows' & Hrows & H). injection H as <-.
    constructor; [exact (new_row_built _ _ _ Hrow) |].
    now apply (IH (S i)).
Qed.

Lemma synthesize_built (feat : Feature) (track : list Row) :
  synthesize host pattern feat = Ok track ->
  Forall (built host pattern) track.
Proof.
  unfold synthesize. intro H. apply bind_Ok in H as (rows & Hrows & H).
  apply (backfill_stable _ stable_built) in H; [exact H |].
  apply (calculate_stable _ stable_built).
  apply filter_from_Forall. now apply push_rows_built in Hrows.
Qed.

Lemma synthesize_nonempty (feat : Feature) (track : list Row) :
  synthesize host pattern feat = Ok track ->
  exists row0 rest, track = row0 :: rest.
Proof.
  unfold synthesize. intro H. apply bind_Ok in H as (rows & _ & H).
  apply backfill_first in H as (row0 & row0' & rest & _ & -> & _).
  now exists row0', rest.
Qed.

Lemma built_avoids (c : ascii) (row : Row) :
  separator c -> host_avoids c host pattern -> built host pattern row ->
  row_avoids c row.
Proof.
  intros Hc (Hdate' & Htime' & _) (Hdate & Htime & Hzone & Hpitch & Hbank).
  unfold row_avoids.
  rewrite Hdate, Htime, Hzone, Hpitch, Hbank, Hdate', Htime'.
  destruct Hc as [-> | ->]; repeat split.
Qed.

(** The Track of the three-point source. *)
Lemma synthesize_climb :
  exists track,
    synthesize host pattern climb = Ok track /\
    List.length track = 3%nat /\ Forall defined track.
Proof.
  unfold synthesize, climb.
  cbn [coordinates coordTimes push_rows new_row nth bind point
       c_lat c_lon c_alt].
  rewrite remove_duplicate_rows_scan.
  cbn [keep_first_occurrences existsb t Z.eqb Pos.eqb orb].
  apply backfill_after_pass.
  - simpl. lia.
  - simpl. split; [| split; [| exact I]];
      apply Rgt_not_eq; apply getDistance_pos; simpl; lra.
Qed.

End Pipeline.

(** ** [main.js], from the Track of its source *)

Section SingleSource.

Import JS Track Props.
Local Open Scope string_scope.

Variable host : Host.
Variables ident model : string.
Variable features : list Feature.

Lemma Single_main_Ok (filename contents : string) :
  Single.main host ident model features = Ok (filename, contents) ->
  exists feat track row0,
    nth_error features 2 = Some feat /\
    synthesize host "kk:mm:ss" feat = Ok track /\
    hd_error track = Some row0 /\
    filename = default_filename host ident row0 /\
    contents = header host model ident ++ write_rows host track "".
Proof.
  unfold Single.main. destruct (nth_error features 2) as [feat |];
    [| discriminate].
  intro H. apply bind_Ok in H as (track & Htrack & H).
  destruct track as [| row0 rest]; [discriminate |].
  injection H as <- <-. exists feat, (row0 :: rest), row0.
  repeat split. exact Htrack.
Qed.

Lemma Single_main_of_track (feat : Feature) (track : list Row) :
  nth_error features 2 = Some feat ->
  synthesize host "kk:mm:ss" feat = Ok track ->
  exists row0,
    hd_error track = Some row0 /\
    Single.main host ident model features
    = Ok (default_filename host ident row0,
          header host model ident ++ write_rows host track "").
Proof.
  intros Hfeat Htrack. unfold Single.main. rewrite Hfeat, Htrack.
  destruct (synthesize_nonempty _ _ _ _ Htrack) as (row0 & rest & ->).
  exists row0. split; reflexivity.
Qed.

Hypothesis host_one_line : host_avoids newline host "kk:mm:ss".
Hypothesis model_one_line :
  occurs newline (toLocaleUpperCase host model) = false.
Hypothesis ident_one_line :
  occurs newline (toLocaleUpperCase host ident) = false.

Lemma Single_main_lines (filename contents : string) :
  Single.main host ident model features = Ok (filename, contents) ->
  exists feat track,
    nth_error features 2 = Some feat /\
    synthesize host "kk:mm:ss" feat = Ok track /\
    lines contents
    = airframe_line host model ident :: units_row :: names_row
      :: map (data_line host) track /\
    List.length (lines contents) = (3 + List.length track)%nat.
Proof.
  intro Hmain.
  apply Single_main_Ok in Hmain
    as (feat & track & row0 & Hfeat & Htrack & _ & _ & ->).
  exists feat, track. split; [exact Hfeat |]. split; [exact Htrack |].
  assert (Hlines :
    lines (header host model ident ++ write_rows host track "")
    = airframe_line host model ident :: units_row :: names_row
      :: map (data_line host) track).
  { rewrite write_rows_unlines, header_unlines. simpl append at 2.
    rewrite <- unlines_app. apply lines_unlines.
    repeat constructor.
    - unfold airframe_line.
      rewrite !occurs_app, model_one_line, ident_one_line. reflexivity.
    - apply Forall_forall. intros line Hin.
      apply in_map_iff in Hin as (row & <- & Hin).
      apply synthesize_built in Htrack.
      rewrite Forall_forall in Htrack.
      apply data_line_one_line; [apply host_one_line |].
      eapply built_avoids;
        [right; reflexivity | exact host_one_line | exact (Htrack row Hin)]. }
  split; [exact Hlines |].
  rewrite Hlines. simpl. now rewrite length_map.
Qed.

End SingleSource.

Lemma sample_host_avoids (c : Ascii.ascii) (pattern : string) :
  Props.separator c -> Props.host_avoids c Props.sample_host pattern.
Proof.
  intro Hc. repeat split; intros; simpl; now apply occurs_String_int.
Qed.

(** ** Several sources *)

Section Sources.

Import JS Track Props.
Local Open Scope string_scope.

Variable host : Host.

Lemma process_url_skipped (st : Multi.state) (features : list Feature) :
  skipped features = true -> Multi.process_url host st features = Ok st.
Proof.
  unfold skipped, Multi.process_url.
  destruct (nth_error features 2) as [feat |]; [| discriminate].
  now intros ->.
Qed.

Lemma for_each_url_app (urls urls' : list (list Feature))
    (st : Multi.state) :
  Multi.for_each_url host st (urls ++ urls')%list
  = (st' <- Multi.for_each_url host st urls ;;
     Multi.for_each_url host st' urls').
Proof.
  revert st. induction urls as [| features urls IH]; intro st; simpl.
  - reflexivity.
  - destruct (Multi.process_url host st features) as [st' | e]; simpl;
      [apply IH | reflexivity].
Qed.

(** The loop over the urls, as a composition of independent Tracks. *)
Lemma for_each_url_tracks (urls : list (list Feature)) (st : Multi.state) :
  Multi.for_each_url host st urls
  = (tracks <- mapM (track_of host)
                 (List.filter (fun features => negb (skipped features)) urls) ;;
     Ok {| Multi.output :=
             write_rows host (List.concat tracks) (Multi.output st);
           Multi.first_timestamp :=
             match Multi.first_timestamp st with
             | Some ts => Some ts
             | None => option_map t (first_point tracks)
             end |}).
Proof.
  revert st. induction urls as [| features urls IH]; intro st.
  - simpl. destruct st as [out [ts |]]; reflexivity.
  - cbn [Multi.for_each_url List.filter].
    destruct (skipped features) eqn:Hskip; cbn [negb].
    + rewrite process_url_skipped by exact Hskip. apply IH.
    + cbn [mapM]. unfold Multi.process_url, track_of at 1.
      unfold skipped in Hskip.
      destruct (nth_error features 2) as [feat |]; [| reflexivity].
      rewrite Hskip.
      destruct (synthesize host "HH:mm:ss" feat) as [rows | e] eqn:Hrows;
        [| reflexivity].
      destruct (synthesize_nonempty _ _ _ _ Hrows) as (row0 & rest & ->).
      cbn [bind].
      destruct (Multi.first_timestamp st) as [ts |] eqn:Hts;
        cbn [bind]; rewrite IH;
        destruct (mapM (track_of host)
                    (List.filter (fun f => negb (skipped f)) urls))
          as [tracks | e]; cbn [bind]; try reflexivity;
        cbn [Multi.output Multi.first_timestamp List.concat first_point
             option_map];
        now rewrite write_rows_app.
Qed.

(** How a run ends, from the Tracks of its sources. *)
Lemma main_of_tracks (ident model : string) (args_output : option string)
    (urls : list (list Feature)) :
  Multi.main host ident model args_output urls
  = match
      mapM (track_of host)
        (List.filter (fun features => negb (skipped features)) urls)
    with
    | Throw _ => Multi.Exit 1
    | Ok tracks =>
        let contents :=
          header host model ident
          ++ write_rows host (List.concat tracks) "" in
        match given_name args_output, first_point tracks with
        | Some name, _ => Multi.Written name contents
        | None, Some row0 =>
            Multi.Written
              ("outputs/" ++ toLocaleUpperCase host ident ++ "-"
               ++ format host (t row0) "yyyy-LL-dd-HH:mm" ++ ".csv")
              contents
        | None, None => Multi.Uncaught RangeError
        end
    end.
Proof.
  unfold Multi.main. rewrite for_each_url_tracks.
  destruct (mapM (track_of host)
              (List.filter (fun f => negb (skipped f)) urls))
    as [tracks | e]; simpl; [| reflexivity].
  destruct args_output as [o |]; simpl;
    [destruct (String.eqb o "") |];
    destruct (first_point tracks); reflexivity.
Qed.


(** The rows of the Tracks are rows as the first loop builds them. *)
Lemma tracks_built (urls : list (list Feature)) (tracks : list (list Row)) :
  mapM (track_of host) urls = Ok tracks ->
  Forall (built host "HH:mm:ss") (List.concat tracks).
Proof.
  revert tracks. induction urls as [| features urls IH]; intros tracks H.
  - injection H as <-. constructor.
  - cbn [mapM] in H. apply bind_Ok in H as (track & Htrack & H).
    apply bind_Ok in H as (tracks' & Htracks & H). injection H as <-.
    cbn [List.concat]. apply Forall_app. split; [| now apply IH].
    unfold track_of in Htrack.
    destruct (nth_error features 2) as [feat |]; [| discriminate].
    exact (synthesize_built host "HH:mm:ss" feat track Htrack).
Qed.

(** The lines of a file: the three header lines, then the data line of
    each row, in the order of the rows. *)
Lemma file_lines (ident model pattern : string) (rows : list Row) :
  host_avoids newline host pattern ->
  occurs newline (toLocaleUpperCase host model) = false ->
  occurs newline (toLocaleUpperCase host ident) = false ->
  Forall (built host pattern) rows ->
  lines (header host model ident ++ write_rows host rows "")
  = airframe_line host model ident :: units_row :: names_row
    :: map (data_line host) rows.
Proof.
  intros Hhost Hmodel Hident Hrows.
  rewrite write_rows_unlines, header_unlines. simpl append at 2.
  rewrite <- unlines_app. apply lines_unlines.
  repeat constructor.
  - unfold airframe_line. rewrite !occurs_app, Hmodel, Hident. reflexivity.
  - apply Forall_forall. intros line Hin.
    apply in_map_iff in Hin as (row & <- & Hin).
    rewrite Forall_forall in Hrows.
    apply data_line_one_line; [apply Hhost |].
    eapply built_avoids;
      [right; reflexivity | exact Hhost | exact (Hrows row Hin)].
Qed.

End Sources.

(** ** First occurrences by a key *)

Section KeyFacts.

Import JS More.
Local Open Scope Z_scope.

Variables A K : Type.
Variable key : A -> K.
Variable eqb : K -> K -> bool.
Hypothesis eqb_eq : forall x y, eqb x y = true <-> x = y.

Lemma key_eqb_refl (k : K) : eqb k k = true.
Proof. now apply eqb_eq. Qed.

Lemma key_eqb_sym (k k' : K) : eqb k k' = eqb k' k.
Proof.
  destruct (eqb k k') eqn:H, (eqb k' k) eqn:H'; try reflexivity.
  - apply eqb_eq in H. subst. now rewrite key_eqb_refl in H'.
  - apply eqb_eq in H'. subst. now rewrite key_eqb_refl in H.
Qed.

Lemma seen_In (k : K) (seen : list K) :
  existsb (eqb k) seen = true <-> In k seen.
Proof.
  rewrite existsb_exists. split.
  - intros (k' & Hin & H). apply eqb_eq in H. now subst.
  - intro H. exists k. split; [exact H | apply key_eqb_refl].
Qed.

Lemma seen_not_In (k : K) (seen : list K) :
  existsb (eqb k) seen = false <-> ~ In k seen.
Proof.
  rewrite <- seen_In. destruct (existsb (eqb k) seen); split; intro H;
    congruence.
Qed.

Lemma filter_from_scan_key (l pre : list A) (seen : list K) :
  (forall k, existsb (eqb k) seen = existsb (fun y => eqb (key y) k) pre) ->
  filter_from
    (fun x index self =>
       findIndex (fun y => eqb (key y) (key x)) self =? index)
    (pre ++ l) l (Z.of_nat (List.length pre))
  = scan key eqb seen l.
Proof.
  revert pre seen. induction l as [| x rest IH]; intros pre seen Hseen.
  - reflexivity.
  - cbn [filter_from scan].
    assert (Htest :
      (findIndex (fun y => eqb (key y) (key x)) (pre ++ x :: rest)
         =? Z.of_nat (List.length pre))
      = negb (existsb (fun y => eqb (key y) (key x)) pre)).
    { unfold findIndex.
      destruct (existsb (fun y => eqb (key y) (key x)) pre) eqn:Hpre; simpl.
      - pose proof (findIndex_from_early _ _ pre (x :: rest) 0 Hpre).
        apply Z.eqb_neq. lia.
      - rewrite findIndex_from_hit;
          [apply Z.eqb_eq; lia | exact Hpre | apply key_eqb_refl]. }
    rewrite Htest, Hseen.
    assert (Hnext :
      filter_from
        (fun x index self =>
           findIndex (fun y => eqb (key y) (key x)) self =? index)
        (pre ++ x :: rest) rest (Z.of_nat (List.length pre) + 1)
      = scan key eqb (key x :: seen) rest).
    { replace (pre ++ x :: rest) with ((pre ++ [x]) ++ rest)
        by (rewrite <- app_assoc; reflexivity).
      replace (Z.of_nat (List.length pre) + 1)
        with (Z.of_nat (List.length (pre ++ [x])))
        by (rewrite length_app; simpl; lia).
      apply IH. intro k. simpl. rewrite existsb_app. simpl.
      rewrite Hseen, orb_false_r, (key_eqb_sym k (key x)).
      apply orb_comm. }
    rewrite Hnext.
    destruct (existsb (fun y => eqb (key y) (key x)) pre); reflexivity.
Qed.

Lemma first_occurrence_filter_scan (l : list A) :
  first_occurrence_filter key eqb l = scan key eqb [] l.
Proof.
  unfold first_occurrence_filter, JS.filter.
  apply (filter_from_scan_key l [] []). intro k. reflexivity.
Qed.

Lemma scan_In (l : list A) (seen : list K) (x : A) :
  In x (scan key eqb seen l) -> In x l /\ ~ In (key x) seen.
Proof.
  revert seen. induction l as [| y rest IH]; intros seen; simpl;
    [tauto |].
  destruct (existsb (eqb (key y)) seen) eqn:Hy.
  - intro H. apply IH in H as [Hin Hseen]. split; [now right |].
    intro Hx. apply Hseen. now right.
  - intros [-> | H].
    + split; [now left | now apply seen_not_In].
    + apply IH in H as [Hin Hseen]. split; [now right |].
      intro Hx. apply Hseen. now right.
Qed.

Lemma scan_NoDup (l : list A) (seen : list K) :
  NoDup (map key (scan key eqb seen l)).
Proof.
  revert seen. induction l as [| x rest IH]; intro seen; simpl;
    [constructor |].
  destruct (existsb (eqb (key x)) seen); [apply IH |].
  simpl. constructor; [| apply IH].
  intro Hin. apply in_map_iff in Hin as (y & Hkey & Hy).
  apply scan_In in Hy as [_ Hfresh]. apply Hfresh. left. now symmetry.
Qed.

Lemma scan_keys (l : list A) (seen : list K) (k : K) :
  In k (map key l) -> In k seen \/ In k (map key (scan key eqb seen l)).
Proof.
  revert seen. induction l as [| x rest IH]; intro seen; simpl; [tauto |].
  intros [<- | Hin].
  - destruct (existsb (eqb (key x)) seen) eqn:Hx.
    + left. now apply seen_In.
    + right. now left.
  - destruct (IH (key x :: seen) Hin) as [[<- | Hseen] | Hscan].
    + destruct (existsb (eqb (key x)) seen) eqn:Hx.
      * left. now apply seen_In.
      * right. now left.
    + now left.
    + right. destruct (existsb (eqb (key x)) seen); [exact Hscan |].
      now right.
Qed.

Lemma scan_ext (l : list A) (seen seen' : list K) :
  (forall k, In k seen <-> In k seen') ->
  scan key eqb seen l = scan key eqb seen' l.
Proof.
  revert seen seen'. induction l as [| x rest IH]; intros seen seen' Hext;
    simpl; [reflexivity |].
  assert (Hx : existsb (eqb (key x)) seen = existsb (eqb (key x)) seen').
  { destruct (existsb (eqb (key x)) seen) eqn:H; symmetry.
    - apply seen_In. apply Hext. now apply seen_In.
    - apply seen_not_In. rewrite <- Hext. now apply seen_not_In. }
  rewrite Hx, (IH (key x :: seen) (key x :: seen')); [reflexivity |].
  intro k. simpl. now rewrite Hext.
Qed.

Lemma scan_distinct (l : list A) (seen : list K) :
  NoDup (map key l) ->
  (forall x, In x l -> ~ In (key x) seen) ->
  scan key eqb seen l = l.
Proof.
  revert seen. induction l as [| x rest IH]; intros seen Hnodup Hfresh;
    simpl; [reflexivity |].
  inversion Hnodup as [| ? ? Hx Hrest]; subst.
  assert (Hseen : existsb (eqb (key x)) seen = false).
  { apply seen_not_In. apply Hfresh. now left. }
  rewrite Hseen. f_equal. apply IH; [exact Hrest |].
  intros y Hy [Heq | Hin].
  - apply Hx. rewrite Heq. now apply in_map.
  - apply (Hfresh y); [now right | exact Hin].
Qed.

Lemma scan_again (l : list A) (seen seen' : list K) :
  (forall k, In k seen' -> In k seen) ->
  scan key eqb seen' (scan key eqb seen l) = scan key eqb seen l.
Proof.
  intro Hsub. apply scan_distinct; [apply scan_NoDup |].
  intros x Hx Hin. apply scan_In in Hx as [_ Hfresh]. auto.
Qed.

Lemma scan_skip (l1 l2 : list A) (x : A) (seen : list K) :
  In (key x) seen \/ In (key x) (map key l1) ->
  scan key eqb seen (l1 ++ x :: l2) = scan key eqb seen (l1 ++ l2).
Proof.
  revert seen. induction l1 as [| y l1 IH]; intros seen Hx; simpl.
  - destruct Hx as [Hx | []].
    apply seen_In in Hx. rewrite Hx. apply scan_ext.
    intro k. simpl. apply seen_In in Hx. split; [| tauto].
    intros [<- | H]; assumption.
  - assert (Hx' : In (key x) (key y :: seen) \/ In (key x) (map key l1)).
    { simpl in Hx. simpl. tauto. }
    rewrite (IH _ Hx'). reflexivity.
Qed.

Lemma scan_map (l : list A) (seen : list K) :
  map key (scan key eqb seen l) = scan (fun k => k) eqb seen (map key l).
Proof.
  revert seen. induction l as [| x rest IH]; intro seen; simpl;
    [reflexivity |].
  destruct (existsb (eqb (key x)) seen); simpl; now rewrite IH.
Qed.

Lemma scan_length_le (l : list A) (seen : list K) :
  (List.length (scan key eqb seen l) <= List.length l)%nat.
Proof.
  revert seen. induction l as [| x rest IH]; intro seen; simpl; [lia |].
  destruct (existsb (eqb (key x)) seen); simpl; specialize (IH (key x :: seen));
    lia.
Qed.

(** Two different keys leave at least two elements; one key at most one. *)
Lemma scan_two (l : list A) (a b : K) :
  In a (map key l) -> In b (map key l) -> a <> b ->
  (2 <= List.length (scan key eqb [] l))%nat.
Proof.
  intros Ha Hb Hne.
  destruct (scan_keys l [] a Ha) as [[] | Ha'].
  destruct (scan_keys l [] b Hb) as [[] | Hb'].
  destruct (scan key eqb [] l) as [| x [| y rest]].
  - destruct Ha'.
  - destruct Ha' as [<- | []]. destruct Hb' as [<- | []]. congruence.
  - simpl. lia.
Qed.

Lemma scan_one (l : list A) :
  (forall a b, In a (map key l) -> In b (map key l) -> a = b) ->
  (List.length (scan key eqb [] l) <= 1)%nat.
Proof.
  intro Hsame. pose proof (scan_NoDup l []) as Hnodup.
  destruct (scan key eqb [] l) as [| x [| y rest]] eqn:Hscan; simpl; try lia.
  assert (Hx : In x (scan key eqb [] l)) by (rewrite Hscan; now left).
  assert (Hy : In y (scan key eqb [] l)) by (rewrite Hscan; right; now left).
  apply scan_In in Hx as [Hx _]. apply scan_In in Hy as [Hy _].
  simpl in Hnodup. inversion Hnodup as [| ? ? Hnot _]; subst.
  exfalso. apply Hnot. left.
  apply Hsame; now apply in_map.
Qed.

End KeyFacts.

Lemma remove_duplicate_rows_first_occurrences (rows : list Track.Row) :
  Track.remove_duplicate_rows rows = More.scan Track.t Z.eqb [] rows.
Proof.
  exact (first_occurrence_filter_scan Track.Row Z Track.t Z.eqb Z.eqb_eq rows).
Qed.

Lemma remove_duplicate_urls_first_occurrences (urls : list Cli.URL) :
  Cli.remove_duplicate_urls urls = More.scan Cli.href String.eqb [] urls.
Proof.
  exact (first_occurrence_filter_scan Cli.URL string Cli.href String.eqb
           String.eqb_eq urls).
Qed.

(** ** More on distance and bearing *)

Section GeoFacts.

Import JS Geo More.
Local Open Scope R_scope.

Lemma Math_atan2_quadrant (y x : R) :
  0 <= y -> 0 <= x -> 0 <= Math_atan2 y x <= PI / 2.
Proof.
  intros Hy Hx. pose proof PI_RGT_0 as Hpi. unfold Math_atan2.
  destruct (Rlt_dec 0 x) as [Hpos | Hnpos].
  - pose proof (atan_bound (y / x)) as [_ Hup].
    assert (Hq : 0 <= y / x).
    { pose proof (Rinv_0_lt_compat x Hpos). unfold Rdiv. nra. }
    split; [| lra]. rewrite <- atan_0.
    destruct Hq as [Hq | <-]; [left; now apply atan_increasing | lra].
  - destruct (Rlt_dec x 0); [lra |].
    destruct (Rlt_dec 0 y); [lra |].
    destruct (Rlt_dec y 0); lra.
Qed.

Lemma Math_atan2_0_pos (x : R) : 0 < x -> Math_atan2 0 x = 0.
Proof.
  intro Hx. unfold Math_atan2. destruct (Rlt_dec 0 x); [| lra].
  unfold Rdiv. rewrite Rmult_0_l. apply atan_0.
Qed.

Lemma Math_atan2_0_neg (x : R) : x < 0 -> Math_atan2 0 x = PI.
Proof.
  intro Hx. unfold Math_atan2. destruct (Rlt_dec 0 x); [lra |].
  destruct (Rlt_dec x 0); [| lra]. destruct (Rle_dec 0 0); [| lra].
  unfold Rdiv. rewrite Rmult_0_l, atan_0. ring.
Qed.

Lemma Math_atan2_pos_0 (y : R) : 0 < y -> Math_atan2 y 0 = PI / 2.
Proof.
  intro Hy. unfold Math_atan2. destruct (Rlt_dec 0 0); [lra |].
  destruct (Rlt_dec 0 y); [reflexivity | lra].
Qed.

Lemma Math_atan2_neg_0 (y : R) : y < 0 -> Math_atan2 y 0 = - (PI / 2).
Proof.
  intro Hy. unfold Math_atan2. destruct (Rlt_dec 0 0); [lra |].
  destruct (Rlt_dec 0 y); [lra |].
  destruct (Rlt_dec y 0); [reflexivity | lra].
Qed.

Lemma rem_unique (a b : R) (k : Z) :
  0 < b -> (0 <= k)%Z -> IZR k * b <= a < (IZR k + 1) * b ->
  rem a b = a - b * IZR k.
Proof.
  intros Hb Hk [Hlo Hhi]. unfold rem, trunc.
  pose proof (Rinv_0_lt_compat b Hb) as Hinv.
  assert (Hq : IZR k <= a / b < IZR k + 1).
  { unfold Rdiv. split.
    - replace (IZR k) with (IZR k * b * / b) by (field; lra).
      apply Rmult_le_compat_r; lra.
    - replace (IZR k + 1) with ((IZR k + 1) * b * / b) by (field; lra).
      apply Rmult_lt_compat_r; lra. }
  assert (H0 : 0 <= IZR k) by (now apply IZR_le).
  destruct (Rle_dec 0 (a / b)) as [_ | Hn]; [| lra].
  now rewrite (Zfloor_eq k (a / b) Hq).
Qed.

(** The haversine term of two points. *)
Lemma distance_symmetric_term (lat1 lon1 lat2 lon2 : R) :
  sin (deg2rad (lat2 - lat1) / 2) * sin (deg2rad (lat2 - lat1) / 2) +
  cos (deg2rad lat1) * cos (deg2rad lat2) *
  sin (deg2rad (lon2 - lon1) / 2) * sin (deg2rad (lon2 - lon1) / 2)
  = sin (deg2rad (lat1 - lat2) / 2) * sin (deg2rad (lat1 - lat2) / 2) +
    cos (deg2rad lat2) * cos (deg2rad lat1) *
    sin (deg2rad (lon1 - lon2) / 2) * sin (deg2rad (lon1 - lon2) / 2).
Proof.
  assert (Hneg : forall a b,
    sin (deg2rad (a - b) / 2) = - sin (deg2rad (b - a) / 2)).
  { intros a b. rewrite <- sin_neg. f_equal. unfold deg2rad. field. }
  rewrite (Hneg lat2 lat1), (Hneg lon2 lon1). ring.
Qed.

End GeoFacts.

(** ** More on the speed/heading pass *)

Section PassFacts.

Import JS Geo Track Props More.
Local Open Scope R_scope.

Lemma bearing_bounds (lat1 lon1 lat2 lon2 : R) :
  0 <= bearing lat1 lon1 lat2 lon2 < 360.
Proof.
  unfold bearing. cbv zeta.
  set (y := sin _ * cos _). set (x := _ - _).
  pose proof (toDegrees_range _ (Math_atan2_range y x)) as Hd.
  apply rem_pos_range; lra.
Qed.

Lemma distance_nonneg (a b : Row) : 0 <= distance a b.
Proof.
  unfold distance, getDistanceFromLatLonInNm. cbv zeta.
  set (h := _ + _).
  pose proof (Math_atan2_quadrant (sqrt h) (sqrt (1 - h))
                (sqrt_pos h) (sqrt_pos (1 - h))) as [Hlo _].
  assert (Hk : 0 < / (18520000016 / 10000000000))
    by (apply Rinv_0_lt_compat; lra).
  unfold Rdiv at 1. apply Rmult_le_pos; [| lra].
  apply Rmult_le_pos; lra.
Qed.

Lemma speed_and_heading_time (last row : Row) :
  t (speed_and_heading last row) = t row.
Proof. unfold speed_and_heading. destruct (Req_dec_T _ 0); reflexivity. Qed.

Lemma loop_times (rows : list Row) (last : Row) :
  map t (speed_and_heading_loop last rows) = map t rows.
Proof.
  revert last. induction rows as [| row rest IH]; intro last; simpl;
    [reflexivity |].
  now rewrite speed_and_heading_time, IH.
Qed.

(** The first row is compared with itself. *)
Lemma calculate_cons (row0 : Row) (rest : list Row) :
  calculate_speed_and_heading (row0 :: rest)
  = with_hdg (with_spd row0 None) None
    :: speed_and_heading_loop (with_hdg (with_spd row0 None) None) rest.
Proof.
  unfold calculate_speed_and_heading. cbn [speed_and_heading_loop].
  now rewrite (speed_and_heading_same row0 row0) by apply getDistance_same.
Qed.

Lemma backfill_short (rows : list Row) :
  (List.length rows <= 1)%nat ->
  backfill (calculate_speed_and_heading rows) = Throw TypeError.
Proof.
  destruct rows as [| row0 [| row1 rest]]; simpl List.length; intro H;
    try lia; [reflexivity |].
  now rewrite calculate_cons.
Qed.

Lemma backfill_long (rows : list Row) :
  (2 <= List.length rows)%nat ->
  exists row0 row1 rest,
    backfill (calculate_speed_and_heading rows) = Ok (row0 :: row1 :: rest) /\
    spd row0 = spd row1 /\ hdg row0 = hdg row1 /\
    map t (row0 :: row1 :: rest) = map t rows.
Proof.
  destruct rows as [| r0 [| r1 rest]]; simpl List.length; intro H; try lia.
  rewrite calculate_cons. cbn [speed_and_heading_loop].
  set (first := with_hdg (with_spd r0 None) None).
  set (second := speed_and_heading first r1).
  exists (with_hdg (with_spd first (spd second)) (hdg second)), second,
    (speed_and_heading_loop second rest).
  split; [reflexivity |]. split; [reflexivity |]. split; [reflexivity |].
  cbn [map]. rewrite loop_times. subst second.
  rewrite speed_and_heading_time. reflexivity.
Qed.

End PassFacts.

(** ** Synthesis, from the times of the source *)

Section SynthesisFacts.

Import JS Track Props More.

Variable host : Host.
Variable pattern : string.

(** The first loop succeeds exactly on valid dates, and keeps their time
    values. *)
Lemma push_rows_valid (coords : list coordinate) (times : list Date)
    (mss : list Z) (i : nat) :
  List.length mss = List.length coords ->
  (forall j, (j < List.length coords)%nat ->
             nth (i + j) times InvalidDate = TimeValue (nth j mss 0%Z)) ->
  exists rows,
    push_rows host pattern coords times i = Ok rows /\ map t rows = mss.
Proof.
  revert mss i. induction coords as [| coord rest IH]; intros mss i Hlen Hnth.
  - destruct mss; [| discriminate]. exists []. split; reflexivity.
  - destruct mss as [| ms mss]; [discriminate |].
    simpl in Hlen. injection Hlen as Hlen.
    destruct (IH mss (S i) Hlen) as (rows & Hrows & Hts).
    { intros j Hj. specialize (Hnth (S j)). simpl in Hnth.
      rewrite Nat.add_succ_r in Hnth. apply Hnth. lia. }
    specialize (Hnth 0%nat). rewrite Nat.add_0_r in Hnth. simpl in Hnth.
    cbn [push_rows]. rewrite Hnth by lia. cbn [new_row bind].
    rewrite Hrows. cbn [bind]. eexists. split; [reflexivity |].
    simpl. now rewrite Hts.
Qed.

Lemma push_rows_length (coords : list coordinate) (times : list Date)
    (i : nat) (rows : list Row) :
  push_rows host pattern coords times i = Ok rows ->
  List.length rows = List.length coords.
Proof.
  revert i rows. induction coords as [| coord rest IH]; intros i rows; simpl.
  - intro H. now injection H as <-.
  - intro H. apply bind_Ok in H as (row & Hrow & H).
    apply bind_Ok in H as (rows' & Hrows & H). injection H as <-.
    simpl. now rewrite (IH (S i) rows').
Qed.

Lemma times_are_nth (feat : Feature) (mss : list Z) :
  times_are feat mss ->
  forall j, (j < List.length (coordinates feat))%nat ->
            nth (0 + j) (coordTimes feat) InvalidDate
            = TimeValue (nth j mss 0%Z).
Proof.
  intros [Hlen Hfirst] j Hj. simpl.
  assert (Hj' : nth j (firstn (List.length (coordinates feat))
                         (coordTimes feat)) InvalidDate
                = nth j (coordTimes feat) InvalidDate).
  { rewrite nth_firstn. apply Nat.ltb_lt in Hj. now rewrite Hj. }
  rewrite <- Hj', Hfirst.
  rewrite (nth_indep _ InvalidDate (TimeValue 0%Z))
    by (rewrite length_map; lia).
  apply map_nth.
Qed.

(** With valid dates, synthesis is the backfill of the pass over the
    first occurrences. *)
Lemma synthesize_valid (feat : Feature) (mss : list Z) :
  times_are feat mss ->
  exists rows,
    map t rows = mss /\
    synthesize host pattern feat
    = backfill (calculate_speed_and_heading (remove_duplicate_rows rows)).
Proof.
  intro Htimes.
  destruct (push_rows_valid (coordinates feat) (coordTimes feat) mss 0
              (proj1 Htimes) (times_are_nth feat mss Htimes))
    as (rows & Hrows & Hts).
  exists rows. split; [exact Hts |].
  unfold synthesize. now rewrite Hrows.
Qed.

Lemma stable_from_source (feat : Feature) : stable (from_source feat).
Proof. split; intros row v H; exact H. Qed.

Lemma push_rows_from_source (feat : Feature) (coords pre : list coordinate)
    (rows : list Row) :
  coordinates feat = (pre ++ coords)%list ->
  push_rows host pattern coords (coordTimes feat) (List.length pre) = Ok rows ->
  Forall (from_source feat) rows.
Proof.
  revert pre rows. induction coords as [| coord rest IH]; intros pre rows Hf.
  - intro H. injection H as <-. constructor.
  - cbn [push_rows]. intro H.
    apply bind_Ok in H as (row & Hrow & H).
    apply bind_Ok in H as (rows' & Hrows & H). injection H as <-.
    constructor.
    + destruct (nth (List.length pre) (coordTimes feat) InvalidDate)
        as [ms |] eqn:Hms; [| discriminate].
      injection Hrow as <-.
      exists (List.length pre), coord, ms.
      split; [| repeat split; exact Hms].
      rewrite Hf, nth_error_app2 by lia.
      now rewrite Nat.sub_diag.
    + apply (IH (pre ++ [coord])%list).
      * now rewrite <- app_assoc.
      * rewrite length_app, Nat.add_1_r. exact Hrows.
Qed.

(** The first row of a Track is the first coordinate at its date. *)
Lemma synthesize_first (feat : Feature) (track : list Row) :
  synthesize host pattern feat = Ok track ->
  exists ms row0 rest,
    track = row0 :: rest /\
    nth 0 (coordTimes feat) InvalidDate = TimeValue ms /\ t row0 = ms.
Proof.
  unfold synthesize. intro H. apply bind_Ok in H as (rows & Hrows & H).
  destruct (coordinates feat) as [| coord coords].
  - injection Hrows as <-. discriminate.
  - cbn [push_rows] in Hrows.
    apply bind_Ok in Hrows as (row & Hrow & Hrows).
    apply bind_Ok in Hrows as (rows' & _ & Hrows). injection Hrows as <-.
    destruct (nth 0 (coordTimes feat) InvalidDate) as [ms |] eqn:Hms;
      [| discriminate].
    injection Hrow as <-.
    rewrite remove_duplicate_rows_first_occurrences in H.
    cbn [scan existsb] in H. rewrite calculate_cons in H.
    apply backfill_first in H as (r0 & r0' & rest & Heq & -> & Ht).
    injection Heq as <- _.
    exists ms, r0', rest. repeat split. exact Ht.
Qed.

End SynthesisFacts.

(** ** The sample sources *)

Section SampleSources.

Import JS Track Props More.
Local Open Scope string_scope.

Variable host : Host.
Variable pattern : string.

(** The two coordinates of [hover] make a Track of two points. *)
Lemma synthesize_hover :
  exists row0 row1,
    synthesize host pattern hover = Ok [row0; row1] /\
    t row0 = 0%Z /\ t row1 = 60000%Z.
Proof.
  destruct (synthesize_valid host pattern hover [0; 60000]%Z
              (conj eq_refl eq_refl)) as (rows & Hts & ->).
  destruct rows as [| r0 [| r1 [| r2 rest]]]; try discriminate.
  injection Hts as Ht0 Ht1.
  assert (Hkeep : remove_duplicate_rows [r0; r1] = [r0; r1]).
  { rewrite remove_duplicate_rows_first_occurrences.
    cbn [scan existsb]. rewrite Ht0, Ht1. reflexivity. }
  rewrite Hkeep.
  destruct (backfill_long [r0; r1] (le_n 2))
    as (row0 & row1 & rest & Hok & _ & _ & Hmap).
  rewrite Hok. cbn [map] in Hmap. injection Hmap as H0 H1 Hrest.
  apply map_eq_nil in Hrest. subst rest.
  exists row0, row1. split; [reflexivity |].
  split; congruence.
Qed.

(** The Tracks of the three-point source and of [hover], with a source
    of one coordinate between them. *)
Lemma tracks_of_climb_and_hover (climbing hovering : list Row) :
  synthesize host "HH:mm:ss" climb = Ok climbing ->
  synthesize host "HH:mm:ss" hover = Ok hovering ->
  mapM (track_of host)
    (List.filter (fun features => negb (skipped features))
       [kml climb; kml single_point; kml hover])
  = Ok [climbing; hovering].
Proof.
  intros Hclimb Hhover.
  change (List.filter (fun features => negb (skipped features))
            [kml climb; kml single_point; kml hover])
    with [kml climb; kml hover].
  cbn [mapM].
  change (track_of host (kml climb))
    with (synthesize host "HH:mm:ss" climb).
  change (track_of host (kml hover))
    with (synthesize host "HH:mm:ss" hover).
  now rewrite Hclimb, Hhover.
Qed.

End SampleSources.

(** ** Column widths *)

Section Widths.

Import JS Track Props More.
Local Open Scope string_scope.

Lemma string_length_app (a b : string) :
  String.length (a ++ b) = (String.length a + String.length b)%nat.
Proof. induction a as [| x a IH]; simpl; [reflexivity | now rewrite IH]. Qed.

Lemma length_spaces (n : nat) : String.length (spaces n) = n.
Proof. induction n as [| n IH]; simpl; [reflexivity | now rewrite IH]. Qed.

Lemma length_padStart (n : nat) (s : string) :
  String.length (padStart n s) = Nat.max n (String.length s).
Proof. unfold padStart. rewrite string_length_app, length_spaces. lia. Qed.

Lemma length_padEnd (n : nat) (s : string) :
  String.length (padEnd n s) = Nat.max n (String.length s).
Proof. unfold padEnd. rewrite string_length_app, length_spaces. lia. Qed.

Lemma length_concat (sep field : string) (fields : list string) :
  String.length (String.concat sep (field :: fields))
  = (String.length field
     + list_sum
         (map (fun f => String.length sep + String.length f) fields))%nat.
Proof.
  revert field. induction fields as [| g fields IH]; intro field.
  - simpl. lia.
  - change (String.concat sep (field :: g :: fields))
      with (field ++ sep ++ String.concat sep (g :: fields)).
    rewrite !string_length_app, IH. simpl. lia.
Qed.

(** The length of a data line: each value takes its column width, or its
    own length when that is more. *)
Lemma data_line_length (host : Host) (row : Row) :
  String.length (data_line host row)
  = (256
     + Nat.max 10 (String.length (date row))
     + Nat.max 9 (String.length (time row))
     + Nat.max 8 (String.length (zone row))
     + Nat.max 13 (String.length (Number_toString host (lat row)))
     + Nat.max 13 (String.length (Number_toString host (lon row)))
     + Nat.max 8 (String.length (String_int (alt row)))
     + Nat.max 7 (String.length (String_opt (spd row)))
     + Nat.max 7 (String.length (pitch row))
     + Nat.max 7 (String.length (bank row))
     + Nat.max 7 (String.length (String_opt (hdg row))))%nat.
Proof.
  unfold data_line, row_fields. rewrite length_concat.
  cbn [map list_sum]. rewrite !length_padStart, !length_padEnd.
  cbn [String.length]. unfold list_sum. cbn [fold_right]. lia.
Qed.

End Widths.

(** ** More on several sources *)

Section MoreSources.

Import JS Track Props.
Local Open Scope string_scope.

Variable host : Host.

Lemma for_each_url_all_skipped (urls : list (list Feature))
    (st : Multi.state) :
  Forall (fun features => skipped features = true) urls ->
  Multi.for_each_url host st urls = Ok st.
Proof.
  induction 1 as [| features urls Hskip _ IH]; [reflexivity |].
  cbn [Multi.for_each_url]. now rewrite process_url_skipped.
Qed.

Lemma process_url_throws (st : Multi.state) (features : list Feature)
    (e : exn) :
  skipped features = false -> track_of host features = Throw e ->
  Multi.process_url host st features = Throw e.
Proof.
  unfold skipped, track_of, Multi.process_url.
  destruct (nth_error features 2) as [feat |];
    [| intros _ [= <-]; reflexivity].
  intros -> ->. reflexivity.
Qed.

End MoreSources.

(** ** Urls and links *)

Section Links.

Import JS Cli Props.
Local Open Scope string_scope.

Lemma split_nonempty (sep : ascii) (s : string) : split sep s <> [].
Proof.
  destruct s as [| c s]; simpl; [discriminate |].
  destruct (Ascii.eqb c sep); [discriminate |].
  destruct (split sep s); discriminate.
Qed.

(** Splitting at a separator splits the text before it and the text
    after it. *)
Lemma split_at_separator (sep : ascii) (s rest : string) :
  split sep (s ++ String sep rest) = (split sep s ++ split sep rest)%list.
Proof.
  induction s as [| c s IH]; simpl.
  - now rewrite Ascii.eqb_refl.
  - destruct (Ascii.eqb c sep); [now rewrite IH |].
    rewrite IH. pose proof (split_nonempty sep s) as Hne.
    destruct (split sep s) as [| piece pieces]; [contradiction |].
    reflexivity.
Qed.

Lemma pop_app (l : list string) (x : string) : pop (l ++ [x]) = Some x.
Proof.
  unfold pop. destruct (l ++ [x])%list eqn:H.
  - now destruct l.
  - rewrite <- H. now rewrite last_last.
Qed.

Lemma link_of_google_earth (url : URL) :
  pop (split "/"%char (link_of url)) = Some "google_earth".
Proof.
  unfold link_of.
  destruct (pop (split "/"%char (href url))) as [piece |] eqn:Hpop.
  - destruct (String.eqb piece "google_earth") eqn:Hpiece.
    + apply String.eqb_eq in Hpiece. now subst.
    + change (href url ++ "/google_earth")
        with (href url ++ String "/"%char "google_earth").
      rewrite split_at_separator. apply pop_app.
  - change (href url ++ "/google_earth")
      with (href url ++ String "/"%char "google_earth").
    rewrite split_at_separator. apply pop_app.
Qed.

Lemma append_longer (s extra : string) :
  extra <> "" -> String.eqb (s ++ extra) s = false.
Proof.
  intro Hne. apply String.eqb_neq. intro H.
  apply (f_equal String.length) in H. rewrite string_length_app in H.
  destruct extra; [contradiction | simpl in H; lia].
Qed.

End Links.

(** ** The command line *)

Section CommandLine.

Import JS Track Cli.
Local Open Scope string_scope.

Variable net : Net.
Variable host : Host.

Lemma parse_urls_app (vals1 vals2 : list string) :
  parse_urls net (vals1 ++ vals2)
  = match parse_urls net vals1, parse_urls net vals2 with
    | Some urls1, Some urls2 => Some (urls1 ++ urls2)%list
    | _, _ => None
    end.
Proof.
  induction vals1 as [| val vals1 IH]; cbn [parse_urls List.app].
  - now destruct (parse_urls net vals2).
  - destruct (new_URL net val) as [url |]; [| reflexivity].
    rewrite IH. destruct (parse_urls net vals1) as [urls1 |]; [| reflexivity].
    now destruct (parse_urls net vals2).
Qed.

Lemma parse_urls_In (vals : list string) (urls : list URL) (val : string) :
  parse_urls net vals = Some urls -> In val vals ->
  exists url, new_URL net val = Some url /\ In url urls.
Proof.
  revert urls. induction vals as [| v vals IH]; intros urls Hparse Hin;
    [contradiction |].
  cbn [parse_urls] in Hparse.
  destruct (new_URL net v) as [u |] eqn:Hv; [| discriminate].
  destruct (parse_urls net vals) as [us |]; [| discriminate].
  injection Hparse as <-. destruct Hin as [-> | Hin].
  - exists u. split; [exact Hv | now left].
  - destruct (IH us eq_refl Hin) as (url & Hurl & Hin').
    exists url. split; [exact Hurl | now right].
Qed.

Lemma parse_urls_invalid (vals : list string) (val : string) :
  In val vals -> new_URL net val = None -> parse_urls net vals = None.
Proof.
  intros Hin Hval. destruct (parse_urls net vals) as [urls |] eqn:Hparse;
    [| reflexivity].
  destruct (parse_urls_In vals urls val Hparse Hin) as (url & Hurl & _).
  congruence.
Qed.

Lemma for_each_url_unreachable (urls : list URL) (url : URL)
    (st : Multi.state) :
  In url urls -> toJson net (link_of url) = None ->
  for_each_url net host st urls = None.
Proof.
  intros Hin Hurl. revert st.
  induction urls as [| u urls IH]; intro st; [contradiction |].
  cbn [for_each_url].
  destruct (fetch_and_process net host st u) as [st' |] eqn:Hu;
    [| reflexivity].
  destruct Hin as [-> | Hin]; [| now apply IH].
  unfold fetch_and_process in Hu. now rewrite Hurl in Hu.
Qed.

End CommandLine.

(** * The properties

    First the properties the specification states (C1 to C10), then
    further properties of the code (X1 on). *)

(** C1, on the code. For a source of exactly two coordinates with one
    timestamp, the first loop builds two rows, the filter keeps the first
    only, and the pass leaves its speed and heading undefined, as
    stated.  The backfill then reads [rows[1].spd] where [rows[1]] is
    [undefined], a [TypeError], before any row is rendered.  [main.js] ends
    with that exception; the multi-source program catches it and exits
    with status 1. *)
Theorem one_timestamp_twice_throws (host : JS.Host) (ident model : string)
    (origin destination : Track.Feature) (c1 c2 : Track.coordinate)
    (ms : Z) :
  let times := [Track.TimeValue ms; Track.TimeValue ms] in
  let trajectory :=
    {| Track.coordinates := [c1; c2]; Track.coordTimes := times |} in
  let features := [origin; destination; trajectory] in
  (exists row1 row2,
     Track.push_rows host "kk:mm:ss" [c1; c2] times 0 = JS.Ok [row1; row2] /\
     Track.remove_duplicate_rows [row1; row2] = [row1] /\
     Track.calculate_speed_and_heading [row1] = [row1] /\
     Track.spd row1 = None /\ Track.hdg row1 = None /\
     Track.backfill [row1] = JS.Throw JS.TypeError) /\
  Track.synthesize host "kk:mm:ss" trajectory = JS.Throw JS.TypeError /\
  Single.main host ident model features = JS.Throw JS.TypeError /\
  forall args_output,
    Multi.main host ident model args_output [features] = Multi.Exit 1.
Proof.
  intros times trajectory features.
  assert (Hsyn : forall pattern,
    Track.synthesize host pattern trajectory = JS.Throw JS.TypeError).
  { intro pattern. unfold Track.synthesize, trajectory, times.
    cbn [Track.coordinates Track.coordTimes Track.push_rows Track.new_row
         nth JS.bind].
    rewrite remove_duplicate_rows_scan.
    cbn [Props.keep_first_occurrences existsb Track.t orb].
    rewrite Z.eqb_refl.
    cbn [orb Track.calculate_speed_and_heading Track.speed_and_heading_loop].
    rewrite speed_and_heading_same by (apply getDistance_same).
    reflexivity. }
  split; [| split; [apply Hsyn | split]].
  - unfold times.
    cbn [Track.push_rows Track.new_row nth JS.bind].
    eexists. eexists. split; [reflexivity |]. split; [| split].
    + rewrite remove_duplicate_rows_scan.
      cbn [Props.keep_first_occurrences existsb Track.t orb].
      now rewrite Z.eqb_refl.
    + cbn [Track.calculate_speed_and_heading Track.speed_and_heading_loop].
      rewrite speed_and_heading_same by (apply getDistance_same).
      reflexivity.
    + repeat split.
  - unfold Single.main. cbn [nth_error features]. rewrite Hsyn. reflexivity.
  - intro args_output. unfold Multi.main.
    cbn [Multi.for_each_url Multi.process_url nth_error features].
    cbn [trajectory Track.coordinates List.length Nat.leb].
    fold trajectory. rewrite Hsyn. reflexivity.
Qed.

(** C2, as the code has it. For every input point sequence the filter
    removes exactly those points whose [Date] time value, which is in
    milliseconds, equals the time value of an earlier point: the first
    occurrence of each time value is kept and the relative order of the
    surviving points is preserved. *)
Theorem remove_duplicate_rows_keeps_first_occurrences (rows : list Track.Row) :
  Track.remove_duplicate_rows rows
  = Props.keep_first_occurrences Track.t [] rows.
Proof. apply remove_duplicate_rows_scan. Qed.

(** C2, as stated, fails: two points of one second that differ by 500
    milliseconds both survive the filter, where a filter at one-second
    resolution keeps the first only. *)
Lemma same_second_points_both_survive :
  Track.remove_duplicate_rows Props.same_second_rows = Props.same_second_rows /\
  Props.keep_first_occurrences Props.second_of [] Props.same_second_rows
  = firstn 1 Props.same_second_rows.
Proof. split; reflexivity. Qed.

(** C3, as the code has it. For every Track of at least 2 points in which
    every point after the first lies at a non-zero computed distance from
    the point before it, the speed/heading pass followed by the backfill
    succeeds, keeps the number of points, and leaves every point with a
    defined speed and heading.  (A point at zero distance from its
    predecessor is left undefined by the pass, and only the first point is
    backfilled.) *)
Theorem apart_points_have_speed_and_heading (rows : list Track.Row) :
  (2 <= List.length rows)%nat ->
  Props.consecutive_apart rows ->
  exists track,
    Track.backfill (Track.calculate_speed_and_heading rows) = JS.Ok track /\
    List.length track = List.length rows /\
    Forall Props.defined track.
Proof.
  apply backfill_after_pass.
Qed.

(** A Track the theorem applies to: three points a minute apart, each at
    a higher latitude than the one before. *)
Lemma apart_points_have_speed_and_heading_witness :
  exists track,
    Track.backfill (Track.calculate_speed_and_heading Props.three_rows)
    = JS.Ok track /\
    List.length track = List.length Props.three_rows /\
    Forall Props.defined track.
Proof.
  apply (apart_points_have_speed_and_heading Props.three_rows).
  - simpl. lia.
  - simpl. split; [| split; [| exact I]];
      apply Rgt_not_eq; apply getDistance_pos; simpl; lra.
Defined.

(** C3, as stated, fails: on a Track of two points with distinct
    timestamps and one position, the pass leaves both points without
    speed and heading, and the backfill copies [undefined] from the second
    point to the first. *)
Lemma same_place_points_stay_undefined :
  (2 <= List.length Props.same_place_rows)%nat /\
  Track.backfill (Track.calculate_speed_and_heading Props.same_place_rows)
  = JS.Ok Props.same_place_rows /\
  Forall (fun row => Track.spd row = None /\ Track.hdg row = None)
    Props.same_place_rows.
Proof.
  split; [simpl; lia |]. split.
  - unfold Props.same_place_rows, Track.calculate_speed_and_heading.
    cbn [Track.speed_and_heading_loop].
    rewrite !speed_and_heading_same by (apply getDistance_same).
    reflexivity.
  - repeat constructor.
Qed.

(** C4, as the code has it. Every data line rendered for a row of a
    synthesized Track is the row's 40 comma-separated fields followed by a
    line feed, given that the library functions, as the program calls
    them, print no comma.  The unit row and the column-name row of the
    header have 63 columns each. *)
Theorem data_lines_have_40_fields (host : JS.Host) (pattern : string)
    (feat : Track.Feature) (track : list Track.Row) :
  Props.host_avoids Props.comma host pattern ->
  Track.synthesize host pattern feat = JS.Ok track ->
  Forall
    (fun row =>
       Track.render_row host row
       = (Props.data_line host row ++ JS.nl)%string /\
       List.length (JS.split Props.comma (Props.data_line host row))
       = 40%nat)
    track /\
  List.length (JS.split Props.comma Track.units_row) = 63%nat /\
  List.length (JS.split Props.comma Track.names_row) = 63%nat.
Proof.
  intros Hhost Htrack. split; [| split; vm_compute; reflexivity].
  apply synthesize_built in Htrack.
  eapply Forall_impl; [| exact Htrack].
  intros row Hrow. split; [apply render_row_data_line |].
  rewrite data_line_fields.
  - apply row_fields_length.
  - apply Hhost.
  - eapply built_avoids; [left; reflexivity | exact Hhost | exact Hrow].
Qed.

(** The theorem at the three-point source, the library functions printing
    decimal integers. *)
Lemma data_lines_have_40_fields_witness :
  exists track,
    Track.synthesize Props.sample_host "kk:mm:ss" Props.climb = JS.Ok track /\
    (Forall
       (fun row =>
          Track.render_row Props.sample_host row
          = (Props.data_line Props.sample_host row ++ JS.nl)%string /\
          List.length
            (JS.split Props.comma (Props.data_line Props.sample_host row))
          = 40%nat)
       track /\
     List.length (JS.split Props.comma Track.units_row) = 63%nat /\
     List.length (JS.split Props.comma Track.names_row) = 63%nat).
Proof.
  destruct (synthesize_climb Props.sample_host "kk:mm:ss")
    as (track & Htrack & _).
  exists track. split; [exact Htrack |].
  apply (data_lines_have_40_fields Props.sample_host "kk:mm:ss" Props.climb).
  - apply sample_host_avoids. left. reflexivity.
  - exact Htrack.
Defined.

(** C4, as stated, fails: the two schema rows of the header have 63
    columns each, and the data line of a row has 40 fields, not 44,
    whatever comma-free text the number printer gives for the row's
    latitude and longitude. *)
Lemma schema_rows_have_63_columns_data_line_40 :
  List.length (JS.split Props.comma Track.units_row) = 63%nat /\
  List.length (JS.split Props.comma Track.names_row) = 63%nat /\
  (forall host,
     (forall x, Props.occurs Props.comma (JS.Number_toString host x) = false) ->
     List.length
       (JS.split Props.comma
          (Props.data_line host
             (Props.sample_row 40 (-70) 0 "00:00:00" (Some 41%Z) (Some 322%Z))))
     = 40%nat).
Proof.
  split; [vm_compute; reflexivity |]. split; [vm_compute; reflexivity |].
  intros host Hnum. rewrite data_line_fields.
  - apply row_fields_length.
  - exact Hnum.
  - repeat split.
Qed.

(** C5, as the code has it. The file [main.js] writes consists of three
    header lines (the airframe line, the unit row, the column-name row)
    followed by one data line per point of the synthesized Track, in the
    order of the Track, given that the library functions, as the program
    calls them, print no line feed. *)
Theorem file_is_three_header_lines_and_one_line_per_point
    (host : JS.Host) (ident model : string) (features : list Track.Feature)
    (filename contents : string) :
  Props.host_avoids Props.newline host "kk:mm:ss" ->
  Props.occurs Props.newline (JS.toLocaleUpperCase host model) = false ->
  Props.occurs Props.newline (JS.toLocaleUpperCase host ident) = false ->
  Single.main host ident model features = JS.Ok (filename, contents) ->
  exists feat track,
    nth_error features 2 = Some feat /\
    Track.synthesize host "kk:mm:ss" feat = JS.Ok track /\
    Props.lines contents
    = Track.airframe_line host model ident :: Track.units_row
      :: Track.names_row :: map (Props.data_line host) track /\
    List.length (Props.lines contents) = (3 + List.length track)%nat.
Proof.
  intros Hhost Hmodel Hident Hmain.
  exact (Single_main_lines host ident model features Hhost Hmodel Hident
           filename contents Hmain).
Qed.

(** The theorem at the three-point source, for ident "n12345" and model
    "c172". *)
Lemma file_is_three_header_lines_and_one_line_per_point_witness :
  exists filename contents,
    Single.main Props.sample_host "n12345" "c172" (Props.kml Props.climb)
    = JS.Ok (filename, contents) /\
    exists feat track,
      nth_error (Props.kml Props.climb) 2 = Some feat /\
      Track.synthesize Props.sample_host "kk:mm:ss" feat = JS.Ok track /\
      Props.lines contents
      = Track.airframe_line Props.sample_host "c172" "n12345"
        :: Track.units_row :: Track.names_row
        :: map (Props.data_line Props.sample_host) track /\
      List.length (Props.lines contents) = (3 + List.length track)%nat.
Proof.
  destruct (synthesize_climb Props.sample_host "kk:mm:ss")
    as (track & Htrack & _).
  destruct (Single_main_of_track Props.sample_host "n12345" "c172"
              (Props.kml Props.climb) Props.climb track eq_refl Htrack)
    as (row0 & _ & Hmain).
  eexists. eexists. split; [exact Hmain |].
  exact (file_is_three_header_lines_and_one_line_per_point
           Props.sample_host "n12345" "c172" (Props.kml Props.climb) _ _
           (sample_host_avoids Props.newline "kk:mm:ss" (or_intror eq_refl))
           eq_refl eq_refl Hmain).
Defined.

(** C5, as stated, fails: for the source of three coordinates a minute
    apart, [main.js] writes a file of six lines, three header lines and
    three data lines, the third line being the column-name row; this for
    every host whose functions print no line feed. *)
Lemma three_point_file_has_six_lines :
  List.length (Track.coordinates Props.climb) = 3%nat /\
  (forall host,
     Props.host_avoids Props.newline host "kk:mm:ss" ->
     Props.occurs Props.newline (JS.toLocaleUpperCase host "C172") = false ->
     Props.occurs Props.newline (JS.toLocaleUpperCase host "N12345") = false ->
     exists filename contents track,
       Single.main host "N12345" "C172" (Props.kml Props.climb)
       = JS.Ok (filename, contents) /\
       Track.synthesize host "kk:mm:ss" Props.climb = JS.Ok track /\
       List.length track = 3%nat /\
       List.length (Props.lines contents) = 6%nat /\
       nth_error (Props.lines contents) 2 = Some Track.names_row).
Proof.
  split; [reflexivity |]. intros host Hhost Hmodel Hident.
  destruct (synthesize_climb host "kk:mm:ss") as (track & Htrack & Hlen & _).
  destruct (Single_main_of_track host "N12345" "C172"
              (Props.kml Props.climb) Props.climb track eq_refl Htrack)
    as (row0 & _ & Hmain).
  destruct (Single_main_lines host "N12345" "C172" (Props.kml Props.climb)
              Hhost Hmodel Hident _ _ Hmain)
    as (feat & track' & Hfeat & Htrack' & Hlines & Hcount).
  injection Hfeat as <-. rewrite Htrack in Htrack'. injection Htrack' as <-.
  eexists. eexists. exists track. split; [exact Hmain |].
  split; [exact Htrack |]. split; [exact Hlen |].
  split; [now rewrite Hcount, Hlen |].
  now rewrite Hlines.
Qed.

(** C6. With several sources, [main] of the multi-source program computes
    the Track of every source that is not skipped from that source alone
    ([track_of]: the duplicate filter, the speed/heading pass and the
    backfill run on its rows only).  The file it writes holds the three
    header lines and then one data line per point of these Tracks, Track
    after Track in the order of the sources; unless [--output] names the
    file, it is named after the first point of the first such Track.  An
    exception in any source ends the run with status 1.  This given that
    the library functions, as the program calls them, print no line
    feed. *)
Theorem sources_are_synthesized_independently (host : JS.Host)
    (ident model : string) (args_output : option string)
    (urls : list (list Track.Feature)) :
  Props.host_avoids Props.newline host "HH:mm:ss" ->
  Props.occurs Props.newline (JS.toLocaleUpperCase host model) = false ->
  Props.occurs Props.newline (JS.toLocaleUpperCase host ident) = false ->
  match
    Props.mapM (Props.track_of host)
      (List.filter (fun features => negb (Props.skipped features)) urls)
  with
  | JS.Throw _ => Multi.main host ident model args_output urls = Multi.Exit 1
  | JS.Ok tracks =>
      let written filename :=
        exists contents,
          Multi.main host ident model args_output urls
          = Multi.Written filename contents /\
          Props.lines contents
          = Track.airframe_line host model ident :: Track.units_row
            :: Track.names_row
            :: map (Props.data_line host) (List.concat tracks) in
      match Props.given_name args_output, Props.first_point tracks with
      | Some name, _ => written name
      | None, Some row0 =>
          written
            ("outputs/" ++ JS.toLocaleUpperCase host ident ++ "-"
             ++ JS.format host (Track.t row0) "yyyy-LL-dd-HH:mm"
             ++ ".csv")%string
      | None, None =>
          Multi.main host ident model args_output urls
          = Multi.Uncaught JS.RangeError
      end
  end.
Proof.
  intros Hhost Hmodel Hident.
  rewrite (main_of_tracks host ident model args_output urls).
  destruct (Props.mapM (Props.track_of host)
              (List.filter (fun f => negb (Props.skipped f)) urls))
    as [tracks | e] eqn:Htracks; [| reflexivity].
  pose proof (file_lines host ident model "HH:mm:ss" (List.concat tracks)
                Hhost Hmodel Hident (tracks_built host _ tracks Htracks))
    as Hlines.
  cbv zeta.
  destruct (Props.given_name args_output) as [name |];
    [| destruct (Props.first_point tracks) as [row0 |]; [| reflexivity]];
    eexists; (split; [reflexivity | exact Hlines]).
Qed.

(** The theorem at the three-point source and the two-point source, with
    a source of one coordinate between them: the file holds the three
    header lines, the data lines of the first Track and then those of the
    second, and is named after the first point of the first Track. *)
Lemma sources_are_synthesized_independently_witness :
  exists row0 rest hovering contents,
    Props.track_of Props.sample_host (Props.kml Props.climb)
    = JS.Ok (row0 :: rest) /\
    Props.track_of Props.sample_host (Props.kml Props.hover)
    = JS.Ok hovering /\
    Multi.main Props.sample_host "n12345" "c172" None
      [Props.kml Props.climb; Props.kml Props.single_point;
       Props.kml Props.hover]
    = Multi.Written
        ("outputs/" ++ JS.toLocaleUpperCase Props.sample_host "n12345" ++ "-"
         ++ JS.format Props.sample_host (Track.t row0) "yyyy-LL-dd-HH:mm"
         ++ ".csv")%string
        contents /\
    Props.lines contents
    = Track.airframe_line Props.sample_host "c172" "n12345"
      :: Track.units_row :: Track.names_row
      :: map (Props.data_line Props.sample_host)
           ((row0 :: rest) ++ hovering)%list.
Proof.
  destruct (synthesize_climb Props.sample_host "HH:mm:ss")
    as (track & Hclimb & Hlen & _).
  destruct track as [| row0 rest]; [discriminate |].
  destruct (synthesize_hover Props.sample_host "HH:mm:ss")
    as (h0 & h1 & Hhover & _).
  pose proof (sources_are_synthesized_independently Props.sample_host
                "n12345" "c172" None
                [Props.kml Props.climb; Props.kml Props.single_point;
                 Props.kml Props.hover]
                (sample_host_avoids Props.newline "HH:mm:ss"
                   (or_intror eq_refl))
                eq_refl eq_refl) as H.
  rewrite (tracks_of_climb_and_hover Props.sample_host _ _ Hclimb Hhover)
    in H.
  cbn [Props.given_name Props.first_point] in H. cbv zeta in H.
  destruct H as (contents & Hmain & Hlines).
  exists row0, rest, [h0; h1], contents.
  split; [exact Hclimb |]. split; [exact Hhover |].
  split; [exact Hmain |].
  cbn [List.concat] in Hlines. now rewrite app_nil_r in Hlines.
Defined.



(** C8. For every pair of input coordinates (start latitude/longitude,
    destination latitude/longitude) the bearing function returns a value in
    the half-open interval [0, 360); nothing is assumed of the coordinates,
    so pairs on both sides of the antimeridian are included. *)
Theorem bearing_in_0_360 (startLat startLng destLat destLng : R) :
  (0 <= Geo.bearing startLat startLng destLat destLng < 360)%R.
Proof.
  unfold Geo.bearing.
  set (y := (sin _ * cos _)%R). set (x := (_ - _)%R).
  pose proof (toDegrees_range _ (Math_atan2_range y x)) as Hd.
  apply rem_pos_range; lra.
Qed.

(** C9. The duplicate-timestamp filter is idempotent: applied twice, it
    yields the sequence it yields applied once. *)
Theorem remove_duplicate_rows_idempotent (rows : list Track.Row) :
  Track.remove_duplicate_rows (Track.remove_duplicate_rows rows)
  = Track.remove_duplicate_rows rows.
Proof.
  rewrite !remove_duplicate_rows_scan.
  apply keep_first_occurrences_again. auto.
Qed.

(** C10. Two runs of [main.js] on the same features that differ in the
    ident and the model end alike: both throw the same exception, or both
    write a file, and then the two contents are the same text after the
    airframe line (the schema rows and every data line), and the two file
    names differ only in the upper-cased ident. *)
Theorem data_lines_do_not_depend_on_ident_and_model (host : JS.Host)
    (ident1 model1 ident2 model2 : string)
    (features : list Track.Feature) :
  match Single.main host ident1 model1 features,
        Single.main host ident2 model2 features with
  | JS.Ok (filename1, contents1), JS.Ok (filename2, contents2) =>
      exists rest stamp,
        contents1 = (Track.airframe_line host model1 ident1 ++ rest)%string /\
        contents2 = (Track.airframe_line host model2 ident2 ++ rest)%string /\
        filename1
        = ("outputs/" ++ JS.toLocaleUpperCase host ident1 ++ "-" ++ stamp
           ++ ".csv")%string /\
        filename2
        = ("outputs/" ++ JS.toLocaleUpperCase host ident2 ++ "-" ++ stamp
           ++ ".csv")%string
  | JS.Throw e1, JS.Throw e2 => e1 = e2
  | _, _ => False
  end.
Proof.
  unfold Single.main.
  destruct (nth_error features 2) as [feat |]; [| reflexivity].
  destruct (Track.synthesize host "kk:mm:ss" feat) as [track | e];
    cbn [JS.bind]; [| reflexivity].
  destruct track as [| row0 rest]; [reflexivity |].
  exists ((JS.nl ++ Track.units_row ++ JS.nl ++ Track.names_row ++ JS.nl)
          ++ Track.write_rows host (row0 :: rest) "")%string,
         (JS.format host (Track.t row0) "yyyy-LL-dd-kk:mm").
  unfold Track.header.
  split; [apply string_app_assoc |]. split; [apply string_app_assoc |].
  split; reflexivity.
Qed.

(** X1. After the duplicate filter no two rows have the same time value,
    every time value of the input is still there, and every row left is a
    row of the input. *)
Theorem filtered_rows_have_distinct_times (rows : list Track.Row) :
  NoDup (map Track.t (Track.remove_duplicate_rows rows)) /\
  (forall ms,
     In ms (map Track.t rows)
     <-> In ms (map Track.t (Track.remove_duplicate_rows rows))) /\
  (forall row, In row (Track.remove_duplicate_rows rows) -> In row rows).
Proof.
  rewrite remove_duplicate_rows_first_occurrences. split; [| split].
  - apply scan_NoDup. exact Z.eqb_eq.
  - intro ms. split.
    + intro Hin.
      destruct (scan_keys _ _ Track.t Z.eqb Z.eqb_eq rows [] ms Hin)
        as [[] | H]; exact H.
    + intro Hin. apply in_map_iff in Hin as (row & <- & Hrow).
      apply (scan_In _ _ Track.t Z.eqb Z.eqb_eq) in Hrow as [Hrow _].
      now apply in_map.
  - intros row Hrow.
    now apply (scan_In _ _ Track.t Z.eqb Z.eqb_eq) in Hrow as [Hrow _].
Qed.

(** X2. Rows whose time values are pairwise distinct pass the duplicate
    filter unchanged. *)
Theorem distinct_times_pass_the_filter (rows : list Track.Row) :
  NoDup (map Track.t rows) -> Track.remove_duplicate_rows rows = rows.
Proof.
  intro Hnodup. rewrite remove_duplicate_rows_first_occurrences.
  apply (scan_distinct _ _ Track.t Z.eqb Z.eqb_eq); [exact Hnodup |].
  intros row _ [].
Qed.

(** The theorem at three rows a minute apart. *)
Lemma distinct_times_pass_the_filter_witness :
  Track.remove_duplicate_rows Props.three_rows = Props.three_rows.
Proof.
  apply (distinct_times_pass_the_filter Props.three_rows).
  simpl. repeat constructor; simpl; intuition discriminate.
Defined.

(** X3. After the duplicate-url filter no two urls have the same href,
    every href given is still there, and filtering again removes
    nothing. *)
Theorem filtered_urls_have_distinct_hrefs (urls : list Cli.URL) :
  NoDup (map Cli.href (Cli.remove_duplicate_urls urls)) /\
  (forall h,
     In h (map Cli.href urls)
     <-> In h (map Cli.href (Cli.remove_duplicate_urls urls))) /\
  Cli.remove_duplicate_urls (Cli.remove_duplicate_urls urls)
  = Cli.remove_duplicate_urls urls.
Proof.
  rewrite !remove_duplicate_urls_first_occurrences. split; [| split].
  - apply scan_NoDup. exact String.eqb_eq.
  - intro h. split.
    + intro Hin.
      destruct (scan_keys _ _ Cli.href String.eqb String.eqb_eq urls [] h Hin)
        as [[] | H]; exact H.
    + intro Hin. apply in_map_iff in Hin as (url & <- & Hurl).
      apply (scan_In _ _ Cli.href String.eqb String.eqb_eq) in Hurl
        as [Hurl _].
      now apply in_map.
  - apply (scan_again _ _ Cli.href String.eqb String.eqb_eq). auto.
Qed.

(** X4. The distance of two points is never negative and never more than
    half the circumference of the sphere (6378.137 km times pi, in
    nautical miles). *)
Theorem distance_is_between_zero_and_half_circumference
    (lat1 lon1 lat2 lon2 : R) :
  (0 <= Geo.getDistanceFromLatLonInNm lat1 lon1 lat2 lon2
   <= More.half_circumference)%R.
Proof.
  unfold Geo.getDistanceFromLatLonInNm, More.half_circumference. cbv zeta.
  set (a := (_ + _)%R).
  pose proof (Math_atan2_quadrant (sqrt a) (sqrt (1 - a))
                (sqrt_pos a) (sqrt_pos (1 - a))) as [Hlo Hhi].
  pose proof PI_RGT_0 as Hpi.
  assert (Hk : (0 < / (18520000016 / 10000000000))%R)
    by (apply Rinv_0_lt_compat; lra).
  unfold Rdiv at 1 3. split.
  - apply Rmult_le_pos; [| lra]. apply Rmult_le_pos; lra.
  - apply Rmult_le_compat_r; [lra |]. unfold Rdiv in *. nra.
Qed.

(** X5. The distance is symmetric: from a first point to a second it is
    what it is from the second to the first. *)
Theorem distance_is_symmetric (lat1 lon1 lat2 lon2 : R) :
  Geo.getDistanceFromLatLonInNm lat1 lon1 lat2 lon2
  = Geo.getDistanceFromLatLonInNm lat2 lon2 lat1 lon1.
Proof.
  unfold Geo.getDistanceFromLatLonInNm. cbv zeta.
  now rewrite (distance_symmetric_term lat1 lon1 lat2 lon2).
Qed.

(** X7. Along a meridian the bearing is 0 towards the north and 180
    towards the south: for two points of one longitude whose latitudes
    lie between -90 and 90 degrees, the second at least a millionth of a
    degree north of the first and not its antipode by a millionth. *)
Theorem bearing_along_a_meridian (lat1 lat2 lon : R) :
  (-90 <= lat1)%R -> (lat2 <= 90)%R ->
  (1 / 1000000 <= lat2 - lat1 <= 180 - 1 / 1000000)%R ->
  Geo.bearing lat1 lon lat2 lon = 0%R /\
  Geo.bearing lat2 lon lat1 lon = 180%R.
Proof.
  intros Hsouth Hnorth [Hapart Hspan]. pose proof PI_RGT_0 as Hpi.
  unfold Geo.bearing, Geo.toRadians. cbv zeta.
  replace (lon * PI / 180 - lon * PI / 180)%R with 0%R by ring.
  rewrite sin_0, cos_0, !Rmult_0_l, !Rmult_1_r.
  split.
  - replace (cos (lat1 * PI / 180) * sin (lat2 * PI / 180)
             - sin (lat1 * PI / 180) * cos (lat2 * PI / 180))%R
      with (sin (lat2 * PI / 180 - lat1 * PI / 180))
      by (rewrite sin_minus; ring).
    rewrite Math_atan2_0_pos by (apply sin_gt_0; nra).
    unfold Geo.toDegrees.
    replace (0 * 180 / PI + 360)%R with 360%R by (field; lra).
    rewrite (rem_unique 360 360 1); [ring | lra | lia | lra].
  - replace (cos (lat2 * PI / 180) * sin (lat1 * PI / 180)
             - sin (lat2 * PI / 180) * cos (lat1 * PI / 180))%R
      with (sin (lat1 * PI / 180 - lat2 * PI / 180))
      by (rewrite sin_minus; ring).
    rewrite Math_atan2_0_neg by (apply sin_lt_0_var; nra).
    unfold Geo.toDegrees.
    replace (PI * 180 / PI + 360)%R with 540%R by (field; lra).
    rewrite (rem_unique 540 360 1); [ring | lra | lia | lra].
Qed.

(** The theorem between 40 and 41 degrees north. *)
Lemma bearing_along_a_meridian_witness :
  Geo.bearing 40 (-70) 41 (-70) = 0%R /\
  Geo.bearing 41 (-70) 40 (-70) = 180%R.
Proof. apply (bearing_along_a_meridian 40 41 (-70)); lra. Defined.

(** X8. Along the equator the bearing is 90 towards the east and 270
    towards the west: for two points of latitude 0 whose longitudes lie
    between -180 and 180 degrees, the second at least a millionth of a
    degree east of the first and short of half a turn by a millionth. *)
Theorem bearing_along_the_equator (lon1 lon2 : R) :
  (-180 <= lon1)%R -> (lon2 <= 180)%R ->
  (1 / 1000000 <= lon2 - lon1 <= 180 - 1 / 1000000)%R ->
  Geo.bearing 0 lon1 0 lon2 = 90%R /\
  Geo.bearing 0 lon2 0 lon1 = 270%R.
Proof.
  intros Hwest Heast [Hapart Hspan]. pose proof PI_RGT_0 as Hpi.
  unfold Geo.bearing, Geo.toRadians. cbv zeta.
  replace (0 * PI / 180)%R with 0%R by (field; lra).
  rewrite sin_0, cos_0, !Rmult_1_r, !Rmult_0_l, Rmult_1_l.
  replace (0 - 0)%R with 0%R by ring.
  split.
  - rewrite Math_atan2_pos_0 by (apply sin_gt_0; nra).
    unfold Geo.toDegrees.
    replace (PI / 2 * 180 / PI + 360)%R with 450%R by (field; lra).
    rewrite (rem_unique 450 360 1); [ring | lra | lia | lra].
  - rewrite Math_atan2_neg_0 by (apply sin_lt_0_var; nra).
    unfold Geo.toDegrees.
    replace (- (PI / 2) * 180 / PI + 360)%R with 270%R by (field; lra).
    rewrite (rem_unique 270 360 0); [ring | lra | lia | lra].
Qed.

(** The theorem between 71 and 70 degrees west. *)
Lemma bearing_along_the_equator_witness :
  Geo.bearing 0 (-71) 0 (-70) = 90%R /\
  Geo.bearing 0 (-70) 0 (-71) = 270%R.
Proof. apply (bearing_along_the_equator (-71) (-70)); lra. Defined.

(** X9. A heading the pass assigns is an integer between 0 and 359. *)
Theorem heading_is_between_0_and_359 (last row : Track.Row) (h : Z) :
  Track.hdg (Track.speed_and_heading last row) = Some h ->
  (0 <= h <= 359)%Z.
Proof.
  unfold Track.speed_and_heading.
  destruct (Req_dec_T _ 0); simpl; [discriminate |].
  intro H. injection H as <-. unfold JS.Math_floor.
  pose proof (bearing_bounds (Track.lat last) (Track.lon last)
                (Track.lat row) (Track.lon row)) as [Hlo Hhi].
  pose proof (Zfloor_bound (Geo.bearing (Track.lat last) (Track.lon last)
                              (Track.lat row) (Track.lon row))) as [Hf _].
  split.
  - apply Zfloor_lub. exact Hlo.
  - assert (Hlt : (IZR (Zfloor (Geo.bearing (Track.lat last) (Track.lon last)
                                  (Track.lat row) (Track.lon row))) < 360)%R)
      by lra.
    apply lt_IZR in Hlt. lia.
Qed.

(** The theorem at a point and the point a minute later to its
    north-west. *)
Lemma heading_is_between_0_and_359_witness :
  exists h,
    Track.hdg
      (Track.speed_and_heading
         (Props.sample_row 40 (-70) 0 "00:00:00" None None)
         (Props.sample_row (4001 / 100) (-7001 / 100) 60000 "00:01:00"
            None None))
    = Some h /\ (0 <= h <= 359)%Z.
Proof.
  destruct (speed_and_heading_apart
              (Props.sample_row 40 (-70) 0 "00:00:00" None None)
              (Props.sample_row (4001 / 100) (-7001 / 100) 60000 "00:01:00"
                 None None)) as [_ [h Hh]].
  - apply Rgt_not_eq. apply getDistance_pos; simpl; lra.
  - exists h. split; [exact Hh |].
    exact (heading_is_between_0_and_359 _ _ h Hh).
Defined.

(** X10. The sign of a speed the pass assigns follows the order of the
    two timestamps: it is not negative when the row is later than the row
    before it, and it is negative when the row is earlier. *)
Theorem speed_sign_follows_time_order (last row : Track.Row) (s : Z) :
  Track.spd (Track.speed_and_heading last row) = Some s ->
  ((Track.t last < Track.t row)%Z -> (0 <= s)%Z) /\
  ((Track.t row < Track.t last)%Z -> (s < 0)%Z).
Proof.
  unfold Track.speed_and_heading. fold (Props.distance last row).
  destruct (Req_dec_T (Props.distance last row) 0) as [| Hne]; simpl;
    [discriminate |].
  intro H. injection H as <-. unfold JS.Math_floor.
  pose proof (distance_nonneg last row) as Hd.
  assert (Hpos : (0 < Props.distance last row)%R) by lra.
  set (time := (Track.t row - Track.t last)%Z).
  split; intro Horder.
  - apply Zfloor_lub.
    assert (Ht : (0 < IZR time)%R) by (apply IZR_lt; unfold time; lia).
    assert (Hden : (0 < IZR time / 1000 / 3600)%R)
      by (unfold Rdiv; nra).
    left. unfold Rdiv at 1. apply Rmult_lt_0_compat; [exact Hpos |].
    now apply Rinv_0_lt_compat.
  - assert (Ht : (IZR time < 0)%R) by (apply IZR_lt; unfold time; lia).
    assert (Hden : (IZR time / 1000 / 3600 < 0)%R)
      by (unfold Rdiv; nra).
    pose proof (Rinv_lt_0_compat _ Hden) as Hinv.
    assert (Hq : (Props.distance last row / (IZR time / 1000 / 3600) < 0)%R)
      by (unfold Rdiv at 1; nra).
    pose proof (Zfloor_bound
                  (Props.distance last row / (IZR time / 1000 / 3600)))
      as [Hf _].
    assert (Hlt : (IZR (Zfloor (Props.distance last row
                                / (IZR time / 1000 / 3600))) < 0)%R) by lra.
    now apply lt_IZR in Hlt.
Qed.

(** The theorem at a point and the point a minute later to its
    north-west. *)
Lemma speed_sign_follows_time_order_witness :
  exists s,
    Track.spd
      (Track.speed_and_heading
         (Props.sample_row 40 (-70) 0 "00:00:00" None None)
         (Props.sample_row (4001 / 100) (-7001 / 100) 60000 "00:01:00"
            None None))
    = Some s /\
    (((0 < 60000)%Z -> (0 <= s)%Z) /\ ((60000 < 0)%Z -> (s < 0)%Z)).
Proof.
  destruct (speed_and_heading_apart
              (Props.sample_row 40 (-70) 0 "00:00:00" None None)
              (Props.sample_row (4001 / 100) (-7001 / 100) 60000 "00:01:00"
                 None None)) as [[s Hs] _].
  - apply Rgt_not_eq. apply getDistance_pos; simpl; lra.
  - exists s. split; [exact Hs |].
    exact (speed_sign_follows_time_order _ _ s Hs).
Defined.

(** X12. When every coordinate has a valid date and all the dates are
    one time value (so also for no coordinate, or one), synthesis throws a
    [TypeError]: the filter leaves at most one row, and the backfill reads
    a row that is not there. *)
Theorem one_time_value_throws_TypeError (host : JS.Host) (pattern : string)
    (feat : Track.Feature) (mss : list Z) :
  More.times_are feat mss ->
  (forall a b, In a mss -> In b mss -> a = b) ->
  Track.synthesize host pattern feat = JS.Throw JS.TypeError.
Proof.
  intros Htimes Hsame.
  destruct (synthesize_valid host pattern feat mss Htimes)
    as (rows & Hts & ->).
  apply backfill_short. rewrite remove_duplicate_rows_first_occurrences.
  apply (scan_one _ _ Track.t Z.eqb Z.eqb_eq). now rewrite Hts.
Qed.

(** The theorem at three coordinates of one timestamp. *)
Lemma one_time_value_throws_TypeError_witness :
  Track.synthesize Props.sample_host "kk:mm:ss"
    {| Track.coordinates := Track.coordinates Props.climb;
       Track.coordTimes :=
         [Track.TimeValue 5; Track.TimeValue 5; Track.TimeValue 5] |}
  = JS.Throw JS.TypeError.
Proof.
  apply (one_time_value_throws_TypeError Props.sample_host "kk:mm:ss" _
           [5; 5; 5]%Z).
  - split; reflexivity.
  - intros a b Ha Hb. simpl in Ha, Hb. lia.
Defined.

(** X13. When every coordinate has a valid date and two of the dates
    differ, synthesis succeeds, and the time values of the Track are the
    distinct time values of the source, in the order of their first
    occurrences. *)
Theorem two_time_values_make_a_track (host : JS.Host) (pattern : string)
    (feat : Track.Feature) (mss : list Z) (a b : Z) :
  More.times_are feat mss ->
  In a mss -> In b mss -> a <> b ->
  exists track,
    Track.synthesize host pattern feat = JS.Ok track /\
    map Track.t track = More.distinct_times mss.
Proof.
  intros Htimes Ha Hb Hne.
  destruct (synthesize_valid host pattern feat mss Htimes)
    as (rows & Hts & ->).
  assert (Hlen : (2 <= List.length (Track.remove_duplicate_rows rows))%nat).
  { rewrite remove_duplicate_rows_first_occurrences.
    apply (scan_two _ _ Track.t Z.eqb Z.eqb_eq rows a b);
      [now rewrite Hts | now rewrite Hts | exact Hne]. }
  destruct (backfill_long _ Hlen) as (r0 & r1 & rest & Hok & _ & _ & Hmap).
  exists (r0 :: r1 :: rest). split; [exact Hok |].
  rewrite Hmap, remove_duplicate_rows_first_occurrences.
  unfold More.distinct_times. rewrite <- Hts.
  apply (scan_map _ _ Track.t Z.eqb).
Qed.

(** The theorem at the three-point source. *)
Lemma two_time_values_make_a_track_witness :
  exists track,
    Track.synthesize Props.sample_host "kk:mm:ss" Props.climb = JS.Ok track /\
    map Track.t track = More.distinct_times [0; 60000; 120000]%Z.
Proof.
  apply (two_time_values_make_a_track Props.sample_host "kk:mm:ss"
           Props.climb [0; 60000; 120000]%Z 0%Z 60000%Z).
  - split; reflexivity.
  - simpl. lia.
  - simpl. lia.
  - lia.
Defined.

(** X14. A synthesized Track has at least two points, and its first point
    carries the speed and the heading of its second point: the pass
    compares the first row with itself and always leaves it to the
    backfill. *)
Theorem track_starts_with_the_second_speed (host : JS.Host)
    (pattern : string) (feat : Track.Feature) (track : list Track.Row) :
  Track.synthesize host pattern feat = JS.Ok track ->
  exists row0 row1 rest,
    track = row0 :: row1 :: rest /\
    Track.spd row0 = Track.spd row1 /\ Track.hdg row0 = Track.hdg row1.
Proof.
  unfold Track.synthesize. intro H. apply bind_Ok in H as (rows & _ & H).
  destruct (Nat.le_gt_cases (List.length (Track.remove_duplicate_rows rows))
              1%nat)
    as [Hshort | Hlong].
  - rewrite (backfill_short _ Hshort) in H. discriminate.
  - destruct (backfill_long _ Hlong)
      as (r0 & r1 & rest & Hok & Hspd & Hhdg & _).
    rewrite Hok in H. injection H as <-.
    now exists r0, r1, rest.
Qed.

(** The theorem at the three-point source. *)
Lemma track_starts_with_the_second_speed_witness :
  exists track row0 row1 rest,
    Track.synthesize Props.sample_host "kk:mm:ss" Props.climb = JS.Ok track /\
    track = row0 :: row1 :: rest /\
    Track.spd row0 = Track.spd row1 /\ Track.hdg row0 = Track.hdg row1.
Proof.
  destruct (synthesize_climb Props.sample_host "kk:mm:ss")
    as (track & Htrack & _).
  destruct (track_starts_with_the_second_speed Props.sample_host "kk:mm:ss"
              Props.climb track Htrack) as (row0 & row1 & rest & H).
  exists track, row0, row1, rest. split; [exact Htrack | exact H].
Defined.

(** X15. Every point of a synthesized Track is a coordinate of the source
    at the date of the same index: its latitude and longitude are the
    coordinate's, its altitude the rounded feet of the coordinate's
    metres, its time the date's.  The pipeline invents and moves no
    point. *)
Theorem track_points_come_from_the_source (host : JS.Host)
    (pattern : string) (feat : Track.Feature) (track : list Track.Row) :
  Track.synthesize host pattern feat = JS.Ok track ->
  Forall (More.from_source feat) track.
Proof.
  unfold Track.synthesize. intro H. apply bind_Ok in H as (rows & Hrows & H).
  apply (backfill_stable _ (stable_from_source feat)) in H; [exact H |].
  apply (calculate_stable _ (stable_from_source feat)).
  apply filter_from_Forall.
  exact (push_rows_from_source host pattern feat (Track.coordinates feat) []
           rows eq_refl Hrows).
Qed.

(** The theorem at the three-point source. *)
Lemma track_points_come_from_the_source_witness :
  exists track,
    Track.synthesize Props.sample_host "kk:mm:ss" Props.climb = JS.Ok track /\
    Forall (More.from_source Props.climb) track.
Proof.
  destruct (synthesize_climb Props.sample_host "kk:mm:ss")
    as (track & Htrack & _).
  exists track. split; [exact Htrack |].
  exact (track_points_come_from_the_source Props.sample_host "kk:mm:ss"
           Props.climb track Htrack).
Defined.

(** X16. The file [main.js] writes is named after the date of the first
    coordinate of the source, whichever rows the duplicate filter
    removes: the name is [outputs/], the upper-cased ident, a dash, that
    date formatted as [yyyy-LL-dd-kk:mm], and [.csv]. *)
Theorem file_is_named_after_the_first_coordinate (host : JS.Host)
    (ident model : string) (features : list Track.Feature)
    (filename contents : string) :
  Single.main host ident model features = JS.Ok (filename, contents) ->
  exists feat ms,
    nth_error features 2 = Some feat /\
    nth 0 (Track.coordTimes feat) Track.InvalidDate = Track.TimeValue ms /\
    filename
    = ("outputs/" ++ JS.toLocaleUpperCase host ident ++ "-"
       ++ JS.format host ms "yyyy-LL-dd-kk:mm" ++ ".csv")%string.
Proof.
  intro H.
  apply Single_main_Ok in H
    as (feat & track & row0 & Hfeat & Htrack & Hhd & -> & _).
  apply synthesize_first in Htrack as (ms & r0 & rest & -> & Hms & Ht).
  injection Hhd as <-. exists feat, ms.
  split; [exact Hfeat |]. split; [exact Hms |].
  unfold Props.default_filename. now rewrite Ht.
Qed.

(** The theorem at the three-point source. *)
Lemma file_is_named_after_the_first_coordinate_witness :
  exists filename contents feat ms,
    Single.main Props.sample_host "n12345" "c172" (Props.kml Props.climb)
    = JS.Ok (filename, contents) /\
    nth_error (Props.kml Props.climb) 2 = Some feat /\
    nth 0 (Track.coordTimes feat) Track.InvalidDate = Track.TimeValue ms /\
    filename
    = ("outputs/" ++ JS.toLocaleUpperCase Props.sample_host "n12345" ++ "-"
       ++ JS.format Props.sample_host ms "yyyy-LL-dd-kk:mm" ++ ".csv")%string.
Proof.
  destruct (synthesize_climb Props.sample_host "kk:mm:ss")
    as (track & Htrack & _).
  destruct (Single_main_of_track Props.sample_host "n12345" "c172"
              (Props.kml Props.climb) Props.climb track eq_refl Htrack)
    as (row0 & _ & Hmain).
  destruct (file_is_named_after_the_first_coordinate Props.sample_host
              "n12345" "c172" (Props.kml Props.climb) _ _ Hmain)
    as (feat & ms & H).
  eexists. eexists. exists feat, ms. split; [exact Hmain | exact H].
Defined.

(** X17. [main.js] has no guard for a short source: when the parsed KML
    has no third feature, or its third feature has fewer than two
    coordinates, [main] ends with an exception and writes no file. *)
Theorem main_throws_on_a_short_source (host : JS.Host)
    (ident model : string) (features : list Track.Feature) :
  (match nth_error features 2 with
   | None => True
   | Some feat => (List.length (Track.coordinates feat) < 2)%nat
   end) ->
  exists e, Single.main host ident model features = JS.Throw e.
Proof.
  unfold Single.main.
  destruct (nth_error features 2) as [feat |]; intro Hshort;
    [| now exists JS.TypeError].
  unfold Track.synthesize.
  destruct (Track.push_rows host "kk:mm:ss" (Track.coordinates feat)
              (Track.coordTimes feat) 0) as [rows | e] eqn:Hrows;
    [| now exists e].
  exists JS.TypeError. cbn [JS.bind].
  rewrite backfill_short; [reflexivity |].
  apply push_rows_length in Hrows.
  rewrite remove_duplicate_rows_first_occurrences.
  pose proof (scan_length_le _ _ Track.t Z.eqb rows []). lia.
Qed.

(** The theorem at a source of one coordinate. *)
Lemma main_throws_on_a_short_source_witness :
  exists e,
    Single.main Props.sample_host "n12345" "c172"
      (Props.kml Props.single_point)
    = JS.Throw e.
Proof.
  apply (main_throws_on_a_short_source Props.sample_host "n12345" "c172"
           (Props.kml Props.single_point)).
  simpl. lia.
Defined.

(** X19. A data line is fixed-width: when every value of a row fits the
    column the template pads it to, the line has 345 characters, whatever
    the values are, and the rendered row is that line and a line feed. *)
Theorem data_line_is_fixed_width (host : JS.Host) (row : Track.Row) :
  More.fits host row ->
  String.length (Props.data_line host row) = More.line_width /\
  String.length (Track.render_row host row) = S More.line_width.
Proof.
  intro Hfits. unfold More.fits in Hfits.
  assert (Hline : String.length (Props.data_line host row) = More.line_width).
  { destruct Hfits as (H1 & H2 & H3 & H4 & H5 & H6 & H7 & H8 & H9 & H10).
    rewrite data_line_length, !Nat.max_l by assumption. reflexivity. }
  split; [exact Hline |].
  rewrite render_row_data_line, string_length_app, Hline.
  apply Nat.add_1_r.
Qed.

(** The theorem at a row with a speed of 41 knots and a heading of 322
    degrees, the numbers printed as integers. *)
Lemma data_line_is_fixed_width_witness :
  String.length
    (Props.data_line Props.sample_host
       (Props.sample_row 40 (-70) 0 "00:00:00" (Some 41%Z) (Some 322%Z)))
  = More.line_width /\
  String.length
    (Track.render_row Props.sample_host
       (Props.sample_row 40 (-70) 0 "00:00:00" (Some 41%Z) (Some 322%Z)))
  = S More.line_width.
Proof.
  apply (data_line_is_fixed_width Props.sample_host).
  unfold More.fits. cbn [Props.sample_row Props.sample_host
    Track.date Track.time Track.zone Track.lat Track.lon Track.alt Track.spd
    Track.pitch Track.bank Track.hdg JS.Number_toString JS.String_opt].
  rewrite !ZfloorZ. vm_compute. repeat split; lia.
Defined.

(** X20. A row at zero distance from the row before it is rendered with
    the text [undefined] as its speed and as its heading; the text is 9
    characters in a column of 7, so when the other values of the row fit
    their columns the line is 4 characters longer than the fixed width. *)
Theorem undefined_speed_overflows_its_column (host : JS.Host)
    (last row : Track.Row) :
  Props.distance last row = 0%R ->
  More.fits host (Track.with_hdg (Track.with_spd row (Some 0%Z)) (Some 0%Z)) ->
  let row' := Track.speed_and_heading last row in
  nth_error (Props.row_fields host row') 11 = Some "undefined"%string /\
  nth_error (Props.row_fields host row') 39 = Some "undefined"%string /\
  String.length (Props.data_line host row') = (More.line_width + 4)%nat.
Proof.
  intros Hd Hfits row'. unfold row'.
  rewrite (speed_and_heading_same last row Hd).
  split; [reflexivity |]. split; [reflexivity |].
  rewrite data_line_length. unfold More.fits in Hfits.
  cbn [Track.with_hdg Track.with_spd Track.date Track.time Track.zone
       Track.lat Track.lon Track.alt Track.spd Track.pitch Track.bank
       Track.hdg] in *.
  destruct Hfits as (H1 & H2 & H3 & H4 & H5 & H6 & H7 & H8 & H9 & H10).
  change (String.length (JS.String_opt None)) with 9%nat.
  change (Nat.max 7 9) with 9%nat.
  rewrite !Nat.max_l by assumption. reflexivity.
Qed.

(** The theorem at two rows of one position. *)
Lemma undefined_speed_overflows_its_column_witness :
  let last := Props.sample_row 40 (-70) 0 "00:00:00" None None in
  let row := Props.sample_row 40 (-70) 60000 "00:01:00" None None in
  let row' := Track.speed_and_heading last row in
  nth_error (Props.row_fields Props.sample_host row') 11
  = Some "undefined"%string /\
  nth_error (Props.row_fields Props.sample_host row') 39
  = Some "undefined"%string /\
  String.length (Props.data_line Props.sample_host row')
  = (More.line_width + 4)%nat.
Proof.
  apply (undefined_speed_overflows_its_column Props.sample_host
           (Props.sample_row 40 (-70) 0 "00:00:00" None None)
           (Props.sample_row 40 (-70) 60000 "00:01:00" None None)).
  - apply getDistance_same.
  - unfold More.fits. cbn [Props.sample_row Props.sample_host
      Track.with_hdg Track.with_spd
      Track.date Track.time Track.zone Track.lat Track.lon Track.alt Track.spd
      Track.pitch Track.bank Track.hdg JS.Number_toString JS.String_opt].
    rewrite !ZfloorZ. vm_compute. repeat split; lia.
Defined.

(** X21. When every source is skipped (none is given, or each has fewer
    than two coordinates), the multi-source program has no timestamp for
    the default file name and ends with the [RangeError] of [format];
    with [--output] it writes a file that holds the header only. *)
Theorem skipped_sources_leave_no_file_name (host : JS.Host)
    (ident model : string) (urls : list (list Track.Feature)) :
  Forall (fun features => Props.skipped features = true) urls ->
  Multi.main host ident model None urls = Multi.Uncaught JS.RangeError /\
  forall name,
    name <> ""%string ->
    Multi.main host ident model (Some name) urls
    = Multi.Written name (Track.header host model ident).
Proof.
  intro Hall. unfold Multi.main.
  rewrite (for_each_url_all_skipped host urls _ Hall).
  split; [reflexivity |].
  intros name Hname. apply String.eqb_neq in Hname. rewrite Hname.
  cbn [Multi.output]. now rewrite string_app_nil_r.
Qed.

(** The theorem at a source of one coordinate and a source of none. *)
Lemma skipped_sources_leave_no_file_name_witness :
  Multi.main Props.sample_host "n12345" "c172" None
    [Props.kml Props.single_point; Props.kml Props.origin_marker]
  = Multi.Uncaught JS.RangeError /\
  forall name,
    name <> ""%string ->
    Multi.main Props.sample_host "n12345" "c172" (Some name)
      [Props.kml Props.single_point; Props.kml Props.origin_marker]
    = Multi.Written name (Track.header Props.sample_host "c172" "n12345").
Proof.
  apply (skipped_sources_leave_no_file_name Props.sample_host "n12345" "c172").
  repeat constructor.
Defined.

(** X22. One source that throws ends the whole run with status 1,
    wherever it stands among the sources: the rows of the sources before
    it are not written. *)
Theorem one_throwing_source_ends_the_run (host : JS.Host)
    (ident model : string) (args_output : option string)
    (before after : list (list Track.Feature))
    (features : list Track.Feature) (e : JS.exn) :
  Props.skipped features = false ->
  Props.track_of host features = JS.Throw e ->
  Multi.main host ident model args_output (before ++ features :: after)
  = Multi.Exit 1.
Proof.
  intros Hskip Hthrow. unfold Multi.main. rewrite for_each_url_app.
  destruct (Multi.for_each_url host _ before) as [st | e']; [| reflexivity].
  cbn [JS.bind Multi.for_each_url].
  now rewrite (process_url_throws host st features e Hskip Hthrow).
Qed.

(** The theorem at a KML without features, after the three-point
    source. *)
Lemma one_throwing_source_ends_the_run_witness :
  Multi.main Props.sample_host "n12345" "c172" None
    ([Props.kml Props.climb] ++ [] :: [Props.kml Props.hover])
  = Multi.Exit 1.
Proof.
  apply (one_throwing_source_ends_the_run Props.sample_host "n12345" "c172"
           None [Props.kml Props.climb] [Props.kml Props.hover] []
           JS.TypeError); reflexivity.
Defined.

(** X23. The link the program fetches always ends in the piece
    [google_earth], and building the link of a link changes nothing: a
    url that already ends in [/google_earth] is not extended again. *)
Theorem link_ends_in_google_earth (url : Cli.URL) (path : string) :
  Cli.pop (JS.split "/"%char (Cli.link_of url)) = Some "google_earth"%string /\
  Cli.link_of {| Cli.href := Cli.link_of url; Cli.pathname := path |}
  = Cli.link_of url.
Proof.
  pose proof (link_of_google_earth url) as Hlast.
  split; [exact Hlast |].
  unfold Cli.link_of at 1. cbn [Cli.href]. now rewrite Hlast.
Qed.

(** X24. The duplicate-url filter compares the urls as given, not the
    links fetched: a url and the same url followed by [/google_earth] are
    both kept, and both fetch the same link. *)
Theorem same_flight_in_two_spellings_is_kept_twice (url : Cli.URL)
    (path : string) :
  Cli.pop (JS.split "/"%char (Cli.href url)) <> Some "google_earth"%string ->
  let url' :=
    {| Cli.href := (Cli.href url ++ "/google_earth")%string;
       Cli.pathname := path |} in
  Cli.remove_duplicate_urls [url; url'] = [url; url'] /\
  Cli.link_of url = Cli.link_of url'.
Proof.
  intros Hlast url'. split.
  - rewrite remove_duplicate_urls_first_occurrences.
    cbn [More.scan existsb Cli.href url' orb].
    now rewrite append_longer.
  - pose proof (Hpiece_last := link_of_google_earth url).
    assert (Hlink : Cli.link_of url = Cli.href url').
    { unfold Cli.link_of.
      destruct (Cli.pop (JS.split "/"%char (Cli.href url))) as [piece |];
        [| reflexivity].
      destruct (String.eqb piece "google_earth") eqn:Hpiece; [| reflexivity].
      apply String.eqb_eq in Hpiece. now subst. }
    rewrite Hlink in Hpiece_last.
    unfold Cli.link_of at 2.
    now rewrite Hpiece_last, Hlink.
Qed.

(** The theorem at a FlightAware link. *)
Lemma same_flight_in_two_spellings_is_kept_twice_witness :
  let url' :=
    {| Cli.href := (Cli.href More.flight_url ++ "/google_earth")%string;
       Cli.pathname := Cli.pathname More.flight_url_google_earth |} in
  Cli.remove_duplicate_urls [More.flight_url; url'] = [More.flight_url; url'] /\
  Cli.link_of More.flight_url = Cli.link_of url'.
Proof.
  apply (same_flight_in_two_spellings_is_kept_twice More.flight_url).
  vm_compute. discriminate.
Defined.

(** X25. The ident inferred from a url is the fourth [/]-separated piece
    of its pathname, and [undefined] when the pathname has fewer pieces:
    for [/live/flight/IDENT/history/...] it is [IDENT]. *)
Theorem ident_is_the_fourth_piece_of_the_pathname (url : Cli.URL)
    (piece : string) (pieces : list string) :
  Forall (fun p => Props.occurs "/"%char p = false) (piece :: pieces) ->
  Cli.pathname url = String.concat "/" (piece :: pieces) ->
  Cli.ident_of url = nth_error (piece :: pieces) 3.
Proof.
  intros Hclean Hpath. unfold Cli.ident_of. rewrite Hpath.
  now rewrite (split_concat "/"%char piece pieces Hclean).
Qed.

(** The theorem at a FlightAware link. *)
Lemma ident_is_the_fourth_piece_of_the_pathname_witness :
  Cli.ident_of More.flight_url
  = nth_error
      [""; "live"; "flight"; "N12345"; "history"; "20240501"; "0000Z";
       "KBOS"; "KJFK"]%string 3.
Proof.
  apply (ident_is_the_fourth_piece_of_the_pathname More.flight_url).
  - repeat constructor.
  - reflexivity.
Defined.

(** X26. A url string given a second time changes nothing: the run on
    the arguments with the repetition is the run without it, whatever
    the options, the collaborators and the strings around it. *)
Theorem repeated_url_changes_nothing (net : Cli.Net) (host : JS.Host)
    (args_help : bool) (args_ident args_model args_output : option string)
    (val : string) (vals1 vals2 : list string) :
  In val vals1 ->
  Cli.main net host args_help args_ident args_model args_output
    (vals1 ++ val :: vals2)
  = Cli.main net host args_help args_ident args_model args_output
      (vals1 ++ vals2).
Proof.
  intro Hin. unfold Cli.main.
  destruct args_help; [reflexivity |].
  rewrite !parse_urls_app. cbn [Cli.parse_urls].
  destruct (Cli.parse_urls net vals1) as [urls1 |] eqn:Hparse;
    [| reflexivity].
  destruct (parse_urls_In net vals1 urls1 val Hparse Hin)
    as (url & -> & Hurl).
  destruct (Cli.parse_urls net vals2) as [urls2 |]; [| reflexivity].
  assert (Hdedup : Cli.remove_duplicate_urls (urls1 ++ url :: urls2)
                   = Cli.remove_duplicate_urls (urls1 ++ urls2)).
  { rewrite !remove_duplicate_urls_first_occurrences.
    apply (scan_skip _ _ Cli.href String.eqb String.eqb_eq).
    right. now apply in_map. }
  rewrite Hdedup.
  destruct urls1 as [| url1 urls1]; [contradiction |]. reflexivity.
Qed.

(** The theorem at the sample link, given twice. *)
Lemma repeated_url_changes_nothing_witness :
  Cli.main More.sample_net Props.sample_host false None None None
    ([Cli.href More.flight_url] ++ Cli.href More.flight_url :: [])
  = Cli.main More.sample_net Props.sample_host false None None None
      ([Cli.href More.flight_url] ++ []).
Proof.
  apply (repeated_url_changes_nothing More.sample_net Props.sample_host
           false None None None (Cli.href More.flight_url)
           [Cli.href More.flight_url] []).
  now left.
Defined.

(** X28. One url string that is no url ends the run with status 1 before
    anything is fetched, wherever it stands among the arguments and
    whether or not an ident is given. *)
Theorem invalid_url_ends_the_run (net : Cli.Net) (host : JS.Host)
    (args_ident args_model args_output : option string)
    (val : string) (vals : list string) :
  In val vals -> Cli.new_URL net val = None ->
  Cli.main net host false args_ident args_model args_output vals
  = Multi.Exit 1.
Proof.
  intros Hin Hval. unfold Cli.main.
  now rewrite (parse_urls_invalid net vals val Hin Hval).
Qed.

(** The theorem at a string that is no url, after the sample link. *)
Lemma invalid_url_ends_the_run_witness :
  Cli.main More.sample_net Props.sample_host false (Some "N12345"%string)
    None None [Cli.href More.flight_url; "flightaware"%string]
  = Multi.Exit 1.
Proof.
  apply (invalid_url_ends_the_run More.sample_net Props.sample_host
           (Some "N12345"%string) None None "flightaware"%string).
  - right. now left.
  - reflexivity.
Defined.

(** X29. One link that cannot be fetched ends the run with status 1,
    wherever its url stands: the rows of the sources fetched before it
    are not written. *)
Theorem unreachable_link_ends_the_run (net : Cli.Net) (host : JS.Host)
    (args_ident args_model args_output : option string)
    (vals : list string) (urls : list Cli.URL) (ident : string)
    (url : Cli.URL) :
  Cli.parse_urls net vals = Some urls ->
  args_ident = Some ident \/
  (args_ident = None /\
   exists url0 rest, urls = url0 :: rest /\ Cli.ident_of url0 = Some ident) ->
  In url urls ->
  Cli.toJson net (Cli.link_of url) = None ->
  Cli.main net host false args_ident args_model args_output vals
  = Multi.Exit 1.
Proof.
  intros Hparse Hident Hin Hurl. unfold Cli.main. rewrite Hparse.
  assert (Hresolved :
    match args_ident with
    | Some i => JS.Ok (Some i)
    | None =>
        match urls with
        | [] => JS.Throw JS.TypeError
        | url0 :: _ => JS.Ok (Cli.ident_of url0)
        end
    end = JS.Ok (Some ident)).
  { destruct Hident as [-> | (-> & url0 & rest & -> & ->)]; reflexivity. }
  rewrite Hresolved.
  destruct (scan_keys _ _ Cli.href String.eqb String.eqb_eq urls []
              (Cli.href url) (in_map Cli.href _ _ Hin)) as [[] | Hkept].
  apply in_map_iff in Hkept as (url' & Hhref & Hkept).
  rewrite <- remove_duplicate_urls_first_occurrences in Hkept.
  assert (Hurl' : Cli.toJson net (Cli.link_of url') = None).
  { unfold Cli.link_of. rewrite Hhref. exact Hurl. }
  now rewrite (for_each_url_unreachable net host _ url' _ Hkept Hurl').
Qed.

(** The theorem at a net that knows the sample link and fetches
    nothing. *)
Lemma unreachable_link_ends_the_run_witness :
  Cli.main
    {| Cli.new_URL := Cli.new_URL More.sample_net;
       Cli.toJson := fun _ => None |}
    Props.sample_host false None None None [Cli.href More.flight_url]
  = Multi.Exit 1.
Proof.
  apply (unreachable_link_ends_the_run
           {| Cli.new_URL := Cli.new_URL More.sample_net;
              Cli.toJson := fun _ => None |}
           Props.sample_host None None None
           [Cli.href More.flight_url] [More.flight_url] "N12345"
           More.flight_url).
  - reflexivity.
  - right. split; [reflexivity |].
    exists More.flight_url, []. split; reflexivity.
  - now left.
  - reflexivity.
Defined.
